(** * KonfiguriDZ: the configuration-language compiler of [main.py]

    A shallow embedding of the grammar and of [ConfigTransformer], the
    transformer that Lark runs while it parses (LALR, [transformer=...]):
    every callback is called when its rule is reduced, children first and
    left to right, so the constant table a callback sees is the one built by
    the statements that precede it. *)

From Stdlib Require Import List String Ascii ZArith Lia Bool Arith.
Import ListNotations.
Open Scope string_scope.
Open Scope list_scope.
Open Scope Z_scope.

(** Python's [str]; token texts are modelled as strings of 8-bit characters. *)
Abbreviation str := String.string.

(** ** Python values and exceptions *)

(** What a callback can return: [str], [int] (unbounded) or [list]. *)
#[warnings="-register-all"]
Inductive Value : Type :=
| VStr (s : str)
| VInt (n : Z)
| VList (l : list Value).

(** The exceptions of the program, one constructor per [raise] site with the
    data its message interpolates, and the one the integer operators raise. *)
Inductive exn : Type :=
| Invalid_octal_number (text : str)            (* ValueError, number *)
| Undefined_constant (name : str)              (* ValueError, name_ref *)
| Not_enough_operands (token : Value)          (* ValueError, expression *)
| Math_only_for_integers (a b : Value)         (* TypeError, expression *)
| Expression_error (stack : list Value)        (* ValueError, expression *)
| ZeroDivisionError                            (* raised by // and % *)
| IndexError.                                  (* raised by list.pop *)

Inductive result (A : Type) : Type :=
| Ok (a : A)
| Raise (e : exn).
Arguments Ok {A} a.
Arguments Raise {A} e.

Definition bind {A B} (r : result A) (k : A -> result B) : result B :=
  match r with
  | Ok a => k a
  | Raise e => Raise e
  end.

Notation "x <- r ;; k" := (bind r (fun x => k))
  (at level 61, r at next level, right associativity).

(** Callbacks applied to the children of a node, left to right; the first
    exception ends the walk. *)
Definition mapM {A B} (f : A -> result B) : list A -> result (list B) :=
  fix go (l : list A) : result (list B) :=
    match l with
    | [] => Ok []
    | x :: l' => y <- f x ;; ys <- go l' ;; Ok (y :: ys)
    end.

(** ** The Python primitives the callbacks use *)

Module Py.

(** [s.replace(old, new)] for one-character [old] and [new]. *)
Fixpoint replace (old new : ascii) (s : str) : str :=
  match s with
  | EmptyString => EmptyString
  | String c s' =>
      String (if Ascii.eqb c old then new else c) (replace old new s')
  end.

(** [s[2:-1]]: without its first two characters and its last one; empty
    when [s] has three characters or fewer. *)
Definition slice_2_m1 (s : str) : str :=
  substring 2 (String.length s - 3) s.

(** ASCII whitespace, as [int] skips it around the number. *)
Definition isspace (c : ascii) : bool :=
  let n := nat_of_ascii c in
  (((9 <=? n) && (n <=? 13)) || (n =? 32))%nat.

Fixpoint lstrip (s : str) : str :=
  match s with
  | String c s' => if isspace c then lstrip s' else s
  | EmptyString => EmptyString
  end.

(** The value of a character as a digit of base 8. *)
Definition octal_digit (c : ascii) : option Z :=
  let n := nat_of_ascii c in
  if ((48 <=? n) && (n <=? 55))%nat then Some (Z.of_nat n - 48) else None.

(** The digit loop of [int(s, 8)]: digits are accumulated most significant
    first, single underscores between digits are skipped; a doubled or a
    trailing underscore is an error. Returns the value and the unread rest. *)
Fixpoint scan_digits (s : str) (prev_underscore : bool) (acc : Z)
  : option (Z * str) :=
  match s with
  | String c s' =>
      if Ascii.eqb c "_" then
        if prev_underscore then None else scan_digits s' true acc
      else
        match octal_digit c with
        | Some d => scan_digits s' false (acc * 8 + d)
        | None => if prev_underscore then None else Some (acc, s)
        end
  | EmptyString => if prev_underscore then None else Some (acc, s)
  end.

(** [int(s, 8)] on a [str]: surrounding whitespace, an optional sign, an
    optional [0o]/[0O] prefix (one underscore may follow it), at least one
    digit. [None] stands for [ValueError]. *)
Definition int8 (s : str) : option Z :=
  let s1 := lstrip s in
  let '(sign, s2) :=
    match s1 with
    | String "+" r => (1, r)
    | String "-" r => (-1, r)
    | _ => (1, s1)
    end in
  let s3 :=
    match s2 with
    | String "0" (String c r) =>
        if Ascii.eqb c "o" || Ascii.eqb c "O" then
          match r with
          | String "_" r' => r'
          | _ => r
          end
        else s2
    | _ => s2
    end in
  match s3 with
  | String "_" _ => None
  | _ =>
      match scan_digits s3 false 0 with
      | None => None
      | Some (v, rest) =>
          if (String.length rest =? String.length s3)%nat then None
          else
            match lstrip rest with
            | EmptyString => Some (sign * v)
            | _ => None
            end
      end
  end.

(** [a // b] and [a % b] on [int]: the quotient rounded down and the
    remainder that goes with it; both raise when [b] is zero. *)
Definition floordiv (a b : Z) : result Z :=
  if b =? 0 then Raise ZeroDivisionError else Ok (a / b).

Definition mod_ (a b : Z) : result Z :=
  if b =? 0 then Raise ZeroDivisionError else Ok (a mod b).

(** [x == y] on values: a [str], an [int] and a [list] are never equal to
    one another. *)
Fixpoint eq (x y : Value) : bool :=
  match x, y with
  | VStr s, VStr t => String.eqb s t
  | VInt a, VInt b => a =? b
  | VList l, VList m =>
      (fix eq_list (l m : list Value) : bool :=
         match l, m with
         | [], [] => true
         | a :: l', b :: m' => eq a b && eq_list l' m'
         | _, _ => false
         end) l m
  | _, _ => false
  end.

(** [l.append(x)] and [l.pop()], as the list after the call (and the
    popped element): the end of the list is where both work. *)
Definition append (l : list Value) (x : Value) : list Value := l ++ [x].

Definition pop (l : list Value) : result (Value * list Value) :=
  match rev l with
  | [] => Raise IndexError
  | x :: front => Ok (x, rev front)
  end.

(** [x in l]. *)
Definition in_ (x : Value) (l : list Value) : bool := existsb (eq x) l.

(** [isinstance(x, int)]. *)
Definition isinstance_int (x : Value) : bool :=
  match x with
  | VInt _ => true
  | _ => false
  end.

(** A [dict] keeps its keys in the order of their first insertion;
    assigning to a key that is present replaces the value where it stands. *)
Definition dict : Type := list (str * Value).

Fixpoint getitem (d : dict) (k : str) : option Value :=
  match d with
  | [] => None
  | (k', v) :: d' => if String.eqb k' k then Some v else getitem d' k
  end.

(** [k in d]. *)
Definition contains (d : dict) (k : str) : bool :=
  match getitem d k with
  | Some _ => true
  | None => false
  end.

(** [d[k] = v]. *)
Fixpoint setitem (d : dict) (k : str) (v : Value) : dict :=
  match d with
  | [] => [(k, v)]
  | (k', v') :: d' =>
      if String.eqb k' k then (k', v) :: d' else (k', v') :: setitem d' k v
  end.

Definition keys (d : dict) : list str := map fst d.

End Py.

(** ** The grammar: the trees Lark builds *)

Module Grammar.

Inductive operator : Type := op_plus | op_minus | op_mult | op_div | op_mod.

(** [value: array | string | number | expression | name_ref]. The terminals
    of [string] and [number] are kept with their matched text; [expr_body]
    is a sequence of values and operators. *)
#[warnings="-register-all"]
Inductive value : Type :=
| array (items : list value)
| string (text : str)
| number (text : str)
| expression (expr_body : list (value + operator))
| name_ref (NAME : str).

(** [constant_decl: "set" NAME "=" value]. *)
Record constant_decl : Type := set { NAME : str; val : value }.

(** [start: statement*], [statement: constant_decl]. *)
Definition start : Type := list constant_decl.

(** The lexer rule of [number], [/0[oO][0-7]+/], as a full match. *)
Definition is_octal_digit (c : ascii) : bool :=
  let n := nat_of_ascii c in ((48 <=? n) && (n <=? 55))%nat.

Fixpoint all_octal (s : str) : bool :=
  match s with
  | EmptyString => true
  | String c s' => is_octal_digit c && all_octal s'
  end.

Definition number_re (s : str) : bool :=
  match s with
  | String "0" (String c (String d ds)) =>
      (Ascii.eqb c "o" || Ascii.eqb c "O") && is_octal_digit d && all_octal ds
  | _ => false
  end.

(** The trees the parser can build: every [number] token in them is a text
    the lexer rule matched. *)
Fixpoint lexed (t : value) : bool :=
  match t with
  | array items => forallb lexed items
  | number text => number_re text
  | expression body =>
      forallb (fun item =>
                 match item with
                 | inl v => lexed v
                 | inr _ => true
                 end) body
  | string _ | name_ref _ => true
  end.

(** Induction on a [value] through the lists of its children. *)
Section Induction.

Variable P : value -> Prop.
Hypothesis P_array : forall items, Forall P items -> P (array items).
Hypothesis P_string : forall text, P (string text).
Hypothesis P_number : forall text, P (number text).
Hypothesis P_expression :
  forall body,
    Forall (fun item =>
              match item with
              | inl v => P v
              | inr _ => True
              end) body ->
    P (expression body).
Hypothesis P_name_ref : forall name, P (name_ref name).

Fixpoint value_children_ind (t : value) : P t :=
  match t with
  | array items =>
      P_array items
        ((fix children (l : list value) : Forall P l :=
            match l with
            | [] => Forall_nil P
            | x :: l' => Forall_cons x (value_children_ind x) (children l')
            end) items)
  | string text => P_string text
  | number text => P_number text
  | expression body =>
      P_expression body
        ((fix children (l : list (value + operator))
            : Forall (fun item =>
                        match item with
                        | inl v => P v
                        | inr _ => True
                        end) l :=
            match l with
            | [] => Forall_nil _
            | item :: l' =>
                Forall_cons item
                  (match item
                     return match item with
                            | inl v => P v
                            | inr _ => True
                            end
                   with
                   | inl v => value_children_ind v
                   | inr _ => I
                   end)
                  (children l')
            end) body)
  | name_ref name => P_name_ref name
  end.

End Induction.

End Grammar.

(** ** The transformer *)

Module ConfigTransformer.

(** [self.constants], the only state; [{}] at construction. *)
Definition init : Py.dict := [].

(** Returns [self.constants], whatever its items are. *)
Definition start (self : Py.dict) : Py.dict := self.

(** Stores the value under the name: the table after the call. The pair
    the callback returns goes into a [statement] tree that [start] does
    not read. *)
Definition constant_decl (self : Py.dict) (name : str) (value : Value)
  : Py.dict :=
  Py.setitem self name value.

Definition value (item : Value) : Value := item.

Definition op_plus : Value := VStr "+".
Definition op_minus : Value := VStr "-".
Definition op_mult : Value := VStr "*".
Definition op_div : Value := VStr "/".
Definition op_mod : Value := VStr "mod".

Definition operator (o : Grammar.operator) : Value :=
  match o with
  | Grammar.op_plus => op_plus
  | Grammar.op_minus => op_minus
  | Grammar.op_mult => op_mult
  | Grammar.op_div => op_div
  | Grammar.op_mod => op_mod
  end.

Definition array (items : list Value) : Value := VList items.

Definition string (text : str) : Value := VStr (Py.slice_2_m1 text).

Definition number (text : str) : result Value :=
  match Py.int8 (Py.replace "O" "o" (Py.replace "o" "o" text)) with
  | Some n => Ok (VInt n)
  | None => Raise (Invalid_octal_number text)
  end.

Definition name_ref (self : Py.dict) (name : str) : result Value :=
  if Py.contains self name then
    match Py.getitem self name with
    | Some v => Ok v
    | None => Raise (Undefined_constant name)
    end
  else Raise (Undefined_constant name).

Definition expr_body (items : list Value) : list Value := items.

(** The list the loop of [expression] tests each token against. *)
Definition operators : list Value :=
  [VStr "+"; VStr "-"; VStr "*"; VStr "/"; VStr "mod"].

(** One turn of the loop of [expression]. The stack is the Python list:
    its top is its last element. The test on [a] and [b] is the match:
    anything but two [int]s is the type error. *)
Definition step (stack : list Value) (token : Value)
  : result (list Value) :=
  if Py.in_ token operators then
    if (List.length stack <? 2)%nat then Raise (Not_enough_operands token)
    else
      popped <- Py.pop stack ;;
      let '(b, stack) := popped in
      popped <- Py.pop stack ;;
      let '(a, stack) := popped in
      match a, b with
      | VInt x, VInt y =>
          if Py.eq token (VStr "+") then Ok (Py.append stack (VInt (x + y)))
          else if Py.eq token (VStr "-") then
            Ok (Py.append stack (VInt (x - y)))
          else if Py.eq token (VStr "*") then
            Ok (Py.append stack (VInt (x * y)))
          else if Py.eq token (VStr "/") then
            q <- Py.floordiv x y ;; Ok (Py.append stack (VInt q))
          else if Py.eq token (VStr "mod") then
            r <- Py.mod_ x y ;; Ok (Py.append stack (VInt r))
          else Ok stack
      | _, _ => Raise (Math_only_for_integers a b)
      end
  else Ok (Py.append stack token).

Fixpoint loop (tokens : list Value) (stack : list Value)
  : result (list Value) :=
  match tokens with
  | [] => Ok stack
  | token :: tokens' => stack' <- step stack token ;; loop tokens' stack'
  end.

Definition expression (tokens : list Value) : result Value :=
  stack <- loop tokens [] ;;
  match stack with
  | [v] => Ok v
  | _ => Raise (Expression_error stack)
  end.

(** The callbacks in the order the parser runs them on a [value]: the
    children of a node first, left to right, then the node. *)
Fixpoint transform (self : Py.dict) (t : Grammar.value) : result Value :=
  match t with
  | Grammar.array items =>
      vs <- mapM (transform self) items ;; Ok (value (array vs))
  | Grammar.string text => Ok (value (string text))
  | Grammar.number text => v <- number text ;; Ok (value v)
  | Grammar.expression body =>
      tokens <- mapM (fun item =>
                        match item with
                        | inl v => transform self v
                        | inr o => Ok (operator o)
                        end) body ;;
      v <- expression (expr_body tokens) ;; Ok (value v)
  | Grammar.name_ref name => v <- name_ref self name ;; Ok (value v)
  end.

(** The statements in order, each one transformed with the table the
    statements before it have built, then stored. *)
Fixpoint statements (self : Py.dict) (l : list Grammar.constant_decl)
  : result Py.dict :=
  match l with
  | [] => Ok self
  | s :: l' =>
      v <- transform self (Grammar.val s) ;;
      statements (constant_decl self (Grammar.NAME s) v) l'
  end.

(** [Lark(grammar, parser='lalr', transformer=ConfigTransformer()).parse]
    on the tree of a text: the table, or the first exception. *)
Definition parse (doc : Grammar.start) : result Py.dict :=
  self <- statements init doc ;; Ok (start self).

End ConfigTransformer.

(** ** What the specification says, in its own words *)

Module Spec.

(** The digit a character of [0]..[7] stands for. *)
Definition digit (c : ascii) : Z := Z.of_nat (nat_of_ascii c) - 48.

(** The standard base-8 interpretation of a digit string: the digit with
    [k] digits to its right weighs [8 ^ k]. *)
Fixpoint base8 (digits : str) : Z :=
  match digits with
  | EmptyString => 0
  | String c rest =>
      digit c * 8 ^ Z.of_nat (String.length rest) + base8 rest
  end.

(** Operator semantics: [+], [-], [*] on the pair [(a, b)], floor division
    and floor modulo, division or modulo by zero being an error. *)
Definition apply (o : Grammar.operator) (a b : Z) : result Z :=
  match o with
  | Grammar.op_plus => Ok (a + b)
  | Grammar.op_minus => Ok (a - b)
  | Grammar.op_mult => Ok (a * b)
  | Grammar.op_div => if b =? 0 then Raise ZeroDivisionError else Ok (a / b)
  | Grammar.op_mod =>
      if b =? 0 then Raise ZeroDivisionError else Ok (a mod b)
  end.

(** The declared names, each once, placed where it is declared last. *)
Fixpoint order_of_last_write (names : list str) : list str :=
  match names with
  | [] => []
  | n :: rest =>
      if existsb (String.eqb n) rest then order_of_last_write rest
      else n :: order_of_last_write rest
  end.

(** The declared names, each once, placed where it is declared first. *)
Fixpoint order_of_first_write (names : list str) : list str :=
  match names with
  | [] => []
  | n :: rest =>
      n :: filter (fun m => negb (String.eqb n m)) (order_of_first_write rest)
  end.

End Spec.

(** The callback of one item of an [expr_body]. *)
Definition expr_item (self : Py.dict) (item : Grammar.value + Grammar.operator)
  : result Value :=
  match item with
  | inl v => ConfigTransformer.transform self v
  | inr o => Ok (ConfigTransformer.operator o)
  end.

(** [reaches self t sub]: the walk of [t] comes to [sub], which is [t]
    itself or lies in a child of [t] whose left siblings have all returned. *)
Inductive reaches (self : Py.dict) : Grammar.value -> Grammar.value -> Prop :=
| reaches_here (t : Grammar.value) : reaches self t t
| reaches_array (before after : list Grammar.value) (x sub : Grammar.value)
    (vs : list Value) :
    mapM (ConfigTransformer.transform self) before = Ok vs ->
    reaches self x sub ->
    reaches self (Grammar.array (before ++ x :: after)) sub
| reaches_expression (before after : list (Grammar.value + Grammar.operator))
    (x sub : Grammar.value) (vs : list Value) :
    mapM (expr_item self) before = Ok vs ->
    reaches self x sub ->
    reaches self (Grammar.expression (before ++ inl x :: after)) sub.

(** The exception is not the one [number] raises. *)
Definition not_invalid_octal (e : exn) : Prop :=
  forall text, e <> Invalid_octal_number text.

(** The double quote, and the text of a [string] token around [s]. *)
Definition dquote : str := String (ascii_of_nat 34) EmptyString.

Definition quoted (s : str) : str := ("@" ++ dquote ++ s ++ dquote)%string.

(** ** The trees of the texts the specification names *)

Module Examples.

Import Grammar.

(** [^{ 0o0 0o3 - 0o2 / }] *)
Definition neg3_div_2 : value :=
  expression [inl (number "0o0"); inl (number "0o3"); inr op_minus;
              inl (number "0o2"); inr op_div].

(** [^{ 0o7 0o2 / }] *)
Definition seven_div_2 : value :=
  expression [inl (number "0o7"); inl (number "0o2"); inr op_div].

(** [^{ 0o10 0o3 - }] *)
Definition eight_minus_3 : value :=
  expression [inl (number "0o10"); inl (number "0o3"); inr op_minus].

(** [^{ 0o10 0o3 mod }] *)
Definition eight_mod_3 : value :=
  expression [inl (number "0o10"); inl (number "0o3"); inr op_mod].

(** [^{ A 0o1 + }] for a name [A] *)
Definition successor_of (A : str) : value :=
  expression [inl (name_ref A); inl (number "0o1"); inr op_plus].

(** [set A = 0o1  set B = 0o2  set A = 0o3] *)
Definition redeclared : start :=
  [set "A" (number "0o1"); set "B" (number "0o2"); set "A" (number "0o3")].

(** [set A = ^{ 0o1 0o2 @"+" }] *)
Definition plus_as_text : start :=
  [set "A" (expression [inl (number "0o1"); inl (number "0o2");
                        inl (string (quoted "+"))])].

(** [set P = @"+"  set A = ^{ 0o1 0o2 P }] *)
Definition plus_by_reference : start :=
  [set "P" (string (quoted "+"));
   set "A" (expression [inl (number "0o1"); inl (number "0o2");
                        inl (name_ref "P")])].

(** [set A = ^{ @"mod" }] *)
Definition mod_as_text : start :=
  [set "A" (expression [inl (string (quoted "mod"))])].

End Examples.

(** ** The lexer rule of string literals *)

Module Lexer.

Definition is_dquote (c : ascii) : bool := Ascii.eqb c (ascii_of_nat 34).

(** Characters other than the double quote, then one double quote, to the
    end of the text. *)
Fixpoint string_tail (s : str) : bool :=
  match s with
  | EmptyString => false
  | String c EmptyString => is_dquote c
  | String c s' => negb (is_dquote c) && string_tail s'
  end.

(** The rule of [string] as a full match: an at sign, a double quote, any
    characters but the double quote, a double quote. *)
Definition string_re (s : str) : bool :=
  match s with
  | String "@" (String q tail) => is_dquote q && string_tail tail
  | _ => false
  end.

(** No double quote in the text. *)
Fixpoint quote_free (s : str) : bool :=
  match s with
  | EmptyString => true
  | String c s' => negb (is_dquote c) && quote_free s'
  end.

End Lexer.

(** ** Arithmetic terms and their postfix form *)

Module Arith.

Inductive term : Type :=
| Lit (n : Z)
| Bin (o : Grammar.operator) (l r : term).

(** The value of a term, the left operand first. *)
Fixpoint eval (t : term) : result Z :=
  match t with
  | Lit n => Ok n
  | Bin o l r => a <- eval l ;; b <- eval r ;; Spec.apply o a b
  end.

(** The tokens [expression] receives for the term written in postfix. *)
Fixpoint postfix (t : term) : list Value :=
  match t with
  | Lit n => [VInt n]
  | Bin o l r => postfix l ++ postfix r ++ [ConfigTransformer.operator o]
  end.

End Arith.

(** ** Measures of tokens, values and documents *)

(** How many tokens of the list the loop of [expression] takes for
    operators. *)
Definition count_operators (tokens : list Value) : nat :=
  List.length
    (filter (fun token => Py.in_ token ConfigTransformer.operators) tokens).

(** The names a value refers to. *)
Fixpoint names (t : Grammar.value) : list str :=
  match t with
  | Grammar.array items => flat_map names items
  | Grammar.expression body =>
      flat_map (fun item =>
                  match item with
                  | inl v => names v
                  | inr _ => []
                  end) body
  | Grammar.name_ref name => [name]
  | Grammar.string _ | Grammar.number _ => []
  end.

(** A value without expressions, whose numbers the lexer matched and whose
    references are to names of [declared]. *)
Fixpoint plain (declared : list str) (t : Grammar.value) : bool :=
  match t with
  | Grammar.array items => forallb (plain declared) items
  | Grammar.string _ => true
  | Grammar.number text => Grammar.number_re text
  | Grammar.expression _ => false
  | Grammar.name_ref name => existsb (String.eqb name) declared
  end.

(** A document of plain values, each referring to names declared before
    it or in [declared]. *)
Fixpoint well_scoped (declared : list str) (doc : Grammar.start) : bool :=
  match doc with
  | [] => true
  | s :: rest =>
      plain declared (Grammar.val s)
      && well_scoped (Grammar.NAME s :: declared) rest
  end.

(** * Properties *)

Import ConfigTransformer.

(** ** Octal literals *)

Section Octal.

Lemma is_octal_digit_not_underscore (c : ascii) :
  Grammar.is_octal_digit c = true -> Ascii.eqb c "_" = false.
Proof.
  intros H. destruct (Ascii.eqb c "_") eqn:E; [|reflexivity].
  apply Ascii.eqb_eq in E. subst c. discriminate H.
Qed.

Lemma is_octal_digit_not_O (c : ascii) :
  Grammar.is_octal_digit c = true -> Ascii.eqb c "O" = false.
Proof.
  intros H. destruct (Ascii.eqb c "O") eqn:E; [|reflexivity].
  apply Ascii.eqb_eq in E. subst c. discriminate H.
Qed.

Lemma octal_digit_value (c : ascii) :
  Grammar.is_octal_digit c = true -> Py.octal_digit c = Some (Spec.digit c).
Proof.
  unfold Grammar.is_octal_digit, Py.octal_digit, Spec.digit.
  intros ->. reflexivity.
Qed.

Lemma replace_same (c : ascii) (s : str) : Py.replace c c s = s.
Proof.
  induction s as [|d s IH]; simpl; [reflexivity|].
  rewrite IH. destruct (Ascii.eqb d c) eqn:E; [|reflexivity].
  apply Ascii.eqb_eq in E. now subst.
Qed.

Lemma replace_O_digits (ds : str) :
  Grammar.all_octal ds = true -> Py.replace "O" "o" ds = ds.
Proof.
  induction ds as [|d ds IH]; simpl; [reflexivity|].
  intros H. apply andb_true_iff in H as [Hd Hds].
  rewrite (is_octal_digit_not_O d Hd), (IH Hds). reflexivity.
Qed.

(** The digit loop reads a string of octal digits to its end and returns
    its positional value on top of what was accumulated. *)
Lemma scan_digits_all_octal (ds : str) :
  Grammar.all_octal ds = true ->
  forall acc,
    Py.scan_digits ds false acc
    = Some (acc * 8 ^ Z.of_nat (String.length ds) + Spec.base8 ds, EmptyString).
Proof.
  induction ds as [|d ds IH]; simpl Grammar.all_octal; intros H acc.
  - simpl. f_equal. f_equal. lia.
  - apply andb_true_iff in H as [Hd Hds].
    cbn [Py.scan_digits].
    rewrite (is_octal_digit_not_underscore d Hd), (octal_digit_value d Hd).
    rewrite (IH Hds). f_equal. f_equal.
    cbn [Spec.base8 String.length].
    rewrite Nat2Z.inj_succ, Z.pow_succ_r by lia. ring.
Qed.

Lemma int8_prefixed (p d : ascii) (ds : str) :
  p = "o"%char \/ p = "O"%char ->
  Grammar.is_octal_digit d = true ->
  Grammar.all_octal ds = true ->
  Py.int8 (String "0" (String p (String d ds)))
  = Some (Spec.base8 (String d ds)).
Proof.
  intros Hp Hd Hds.
  assert (Hscan := scan_digits_all_octal (String d ds)).
  cbn [Grammar.all_octal] in Hscan. rewrite Hd, Hds in Hscan.
  specialize (Hscan eq_refl 0).
  assert (Hs3 : match String d ds with
                | String "_" r' => r'
                | _ => String d ds
                end = String d ds).
  { assert (Hu := is_octal_digit_not_underscore d Hd).
    destruct d as [[] [] [] [] [] [] [] []]; try reflexivity.
    discriminate Hu. }
  assert (Hhead : match String d ds with
                  | String "_" _ => true
                  | _ => false
                  end = false).
  { assert (Hu := is_octal_digit_not_underscore d Hd).
    destruct d as [[] [] [] [] [] [] [] []]; try reflexivity.
    discriminate Hu. }
  unfold Py.int8.
  change (Py.lstrip (String "0" (String p (String d ds))))
    with (String "0" (String p (String d ds))).
  cbv iota beta.
  replace (Ascii.eqb p "o" || Ascii.eqb p "O") with true
    by (destruct Hp; subst p; reflexivity).
  rewrite Hs3.
  destruct d as [[] [] [] [] [] [] [] []]; try discriminate Hhead;
    rewrite Hscan; cbn [String.length Nat.eqb Py.lstrip];
    f_equal; lia.
Qed.

(** [number] on a text of the lexer's shape. *)
Lemma number_prefixed (p d : ascii) (ds : str) :
  p = "o"%char \/ p = "O"%char ->
  Grammar.is_octal_digit d = true ->
  Grammar.all_octal ds = true ->
  number (String "0" (String p (String d ds)))
  = Ok (VInt (Spec.base8 (String d ds))).
Proof.
  intros Hp Hd Hds. unfold number.
  rewrite replace_same.
  assert (Hr : Py.replace "O" "o" (String "0" (String p (String d ds)))
               = String "0" (String "o" (String d ds))).
  { cbn [Py.replace]. rewrite (is_octal_digit_not_O d Hd).
    rewrite (replace_O_digits ds Hds).
    destruct Hp; subst p; reflexivity. }
  rewrite Hr, (int8_prefixed "o" d ds); auto.
Qed.

(** [number] on a text the lexer rule matches. *)
Lemma number_lexed (text : str) :
  Grammar.number_re text = true -> exists n, number text = Ok (VInt n).
Proof.
  intros H.
  destruct text as [|z rest]; [discriminate H|].
  destruct z as [[] [] [] [] [] [] [] []]; try discriminate H.
  destruct rest as [|p [|d ds]]; try discriminate H.
  cbn [Grammar.number_re] in H.
  apply andb_true_iff in H as [H Hds].
  apply andb_true_iff in H as [Hp Hd].
  exists (Spec.base8 (String d ds)).
  apply number_prefixed; auto.
  apply orb_true_iff in Hp as [Hp|Hp]; apply Ascii.eqb_eq in Hp; auto.
Qed.

End Octal.

(** C9: every octal literal [0oNNN] or [0ONNN] with one or more digits, all
    in 0-7, resolves to the Integer that is the standard base-8
    interpretation of its digits; [0o17] resolves to 15 and [0o0] to 0. *)
Theorem number_is_base8 :
  (forall (p : ascii) (digits : str),
      p = "o"%char \/ p = "O"%char ->
      digits <> EmptyString ->
      Grammar.all_octal digits = true ->
      number (String "0" (String p digits)) = Ok (VInt (Spec.base8 digits)))
  /\ number "0o17" = Ok (VInt 15)
  /\ number "0o0" = Ok (VInt 0).
Proof.
  split; [|split; reflexivity].
  intros p [|d ds] Hp Hne Hall; [congruence|].
  cbn [Grammar.all_octal] in Hall. apply andb_true_iff in Hall as [Hd Hds].
  now apply number_prefixed.
Qed.

Lemma number_is_base8_witness :
  Grammar.all_octal "755" = true
  /\ number "0O755" = Ok (VInt (7 * 64 + 5 * 8 + 5)).
Proof.
  split; [reflexivity|].
  apply (proj1 number_is_base8 "O"%char "755");
    [right; reflexivity | discriminate | reflexivity].
Defined.

(** ** The stack machine *)

Section StackMachine.

Lemma in_operators (token : Value) :
  Py.in_ token operators = true <-> exists o, token = operator o.
Proof.
  split.
  - destruct token as [s|n|l]; try discriminate.
    unfold Py.in_, operators. cbn [existsb Py.eq].
    rewrite !orb_true_iff.
    intros [H|[H|[H|[H|[H|H]]]]]; try discriminate H;
      apply String.eqb_eq in H; subst s;
      [exists Grammar.op_plus | exists Grammar.op_minus
      | exists Grammar.op_mult | exists Grammar.op_div
      | exists Grammar.op_mod]; reflexivity.
  - intros [[] ->]; reflexivity.
Qed.

Lemma pop_append (l : list Value) (x : Value) :
  Py.pop (l ++ [x]) = Ok (x, l).
Proof.
  unfold Py.pop. rewrite rev_app_distr. cbn [rev app].
  now rewrite rev_involutive.
Qed.

Lemma pop_two (below : list Value) (a b : Value) :
  Py.pop (below ++ [a; b]) = Ok (b, below ++ [a]).
Proof.
  change (below ++ [a; b]) with (below ++ [a] ++ [b]).
  rewrite app_assoc. apply pop_append.
Qed.

Lemma length_two_more (below : list Value) (a b : Value) :
  (List.length (below ++ [a; b]) <? 2)%nat = false.
Proof. apply Nat.ltb_ge. rewrite length_app. cbn. lia. Qed.

(** A token that is none of the five strings is appended to the stack. *)
Lemma step_push (stack : list Value) (token : Value) :
  Py.in_ token operators = false -> step stack token = Ok (stack ++ [token]).
Proof. unfold step. now intros ->. Qed.

Lemma step_push_int (stack : list Value) (n : Z) :
  step stack (VInt n) = Ok (stack ++ [VInt n]).
Proof. reflexivity. Qed.

(** An operator on two Integers at the top of the stack. *)
Lemma step_operator (below : list Value) (a b : Z) (o : Grammar.operator) :
  step (below ++ [VInt a; VInt b]) (operator o)
  = r <- Spec.apply o a b ;; Ok (below ++ [VInt r]).
Proof.
  unfold step.
  replace (Py.in_ (operator o) operators) with true by (now destruct o).
  rewrite length_two_more, pop_two. cbn [bind].
  rewrite pop_append. cbn [bind]. unfold Py.append.
  destruct o; cbn; try reflexivity;
    unfold Py.floordiv, Py.mod_; destruct (b =? 0); reflexivity.
Qed.

Lemma step_too_few (stack : list Value) (token : Value) :
  Py.in_ token operators = true ->
  (List.length stack < 2)%nat ->
  step stack token = Raise (Not_enough_operands token).
Proof.
  intros Hop Hlen. unfold step. rewrite Hop.
  apply Nat.ltb_lt in Hlen. now rewrite Hlen.
Qed.

Lemma step_not_integers (below : list Value) (a b token : Value) :
  Py.in_ token operators = true ->
  Py.isinstance_int a = false \/ Py.isinstance_int b = false ->
  step (below ++ [a; b]) token = Raise (Math_only_for_integers a b).
Proof.
  intros Hop Hty. unfold step. rewrite Hop.
  rewrite length_two_more, pop_two. cbn [bind].
  rewrite pop_append. cbn [bind].
  destruct a, b; try reflexivity; destruct Hty; discriminate.
Qed.

Lemma loop_app (pre post : list Value) :
  forall stack,
    loop (pre ++ post) stack = stack' <- loop pre stack ;; loop post stack'.
Proof.
  induction pre as [|t pre IH]; intros stack; cbn [app loop]; [reflexivity|].
  destruct (step stack t) as [s|e]; cbn [bind]; [apply IH | reflexivity].
Qed.

Lemma loop_raise_at (pre post : list Value) (token : Value)
    (stack : list Value) (e : exn) :
  loop pre [] = Ok stack ->
  step stack token = Raise e ->
  expression (pre ++ token :: post) = Raise e.
Proof.
  intros Hpre Hstep. unfold expression.
  rewrite loop_app, Hpre. cbn [bind loop]. now rewrite Hstep.
Qed.

End StackMachine.

(** C1: [/] and [mod] have floor semantics. For all integers [a] and
    [b <> 0] on top of the stack, [/] leaves the quotient [q] rounded toward
    negative infinity and [mod] the remainder [r = a - q * b], whose sign
    follows the divisor [b]; [^{ 0o0 0o3 - 0o2 / }] evaluates to -2 and
    [^{ 0o7 0o2 / }] to 3. *)
Theorem div_mod_floor :
  (forall (below : list Value) (a b : Z),
      b <> 0 ->
      exists q r,
        step (below ++ [VInt a; VInt b]) op_div = Ok (below ++ [VInt q])
        /\ step (below ++ [VInt a; VInt b]) op_mod = Ok (below ++ [VInt r])
        /\ a = q * b + r
        /\ (0 < b -> q * b <= a < (q + 1) * b /\ 0 <= r < b)
        /\ (b < 0 -> (q + 1) * b < a <= q * b /\ b < r <= 0))
  /\ transform [] Examples.neg3_div_2 = Ok (VInt (-2))
  /\ transform [] Examples.seven_div_2 = Ok (VInt 3).
Proof.
  split; [|split; reflexivity].
  intros below a b Hb. exists (a / b), (a mod b).
  change op_div with (operator Grammar.op_div).
  change op_mod with (operator Grammar.op_mod).
  rewrite !step_operator. cbn [Spec.apply].
  apply Z.eqb_neq in Hb as Hb'. rewrite Hb'. cbn [bind].
  assert (E := Z.div_mod a b Hb).
  repeat split; try reflexivity; try lia.
  - assert (B := Z.mod_pos_bound a b H). nia.
  - assert (B := Z.mod_pos_bound a b H). nia.
  - apply Z.mod_pos_bound; assumption.
  - apply Z.mod_pos_bound; assumption.
  - assert (B := Z.mod_neg_bound a b H). nia.
  - assert (B := Z.mod_neg_bound a b H). nia.
  - apply Z.mod_neg_bound; assumption.
  - apply Z.mod_neg_bound; assumption.
Qed.

Lemma div_mod_floor_witness :
  (-2) <> 0
  /\ exists q r,
      step [VStr "x"; VInt 7; VInt (-2)] op_div = Ok [VStr "x"; VInt q]
      /\ step [VStr "x"; VInt 7; VInt (-2)] op_mod = Ok [VStr "x"; VInt r]
      /\ 7 = q * (-2) + r
      /\ (0 < (-2) -> q * (-2) <= 7 < (q + 1) * (-2) /\ 0 <= r < (-2))
      /\ ((-2) < 0 -> (q + 1) * (-2) < 7 <= q * (-2) /\ (-2) < r <= 0).
Proof.
  split; [lia|].
  apply (proj1 div_mod_floor [VStr "x"] 7 (-2)). lia.
Defined.

(** C2: an operator token pops two operands, [b] first and then [a], which
    was pushed before [b], and pushes the operator applied to [(a, b)]; [-]
    computes [a - b]; [^{ 0o10 0o3 - }] evaluates to 5 and
    [^{ 0o10 0o3 mod }] to 2. *)
Theorem operator_applies_to_a_b :
  (forall (below rest : list Value) (a b : Z) (o : Grammar.operator),
      loop (VInt a :: VInt b :: operator o :: rest) below
      = r <- Spec.apply o a b ;; loop rest (below ++ [VInt r]))
  /\ (forall (below : list Value) (a b : Z),
         step (below ++ [VInt a; VInt b]) op_minus
         = Ok (below ++ [VInt (a - b)]))
  /\ transform [] Examples.eight_minus_3 = Ok (VInt 5)
  /\ transform [] Examples.eight_mod_3 = Ok (VInt 2).
Proof.
  split; [|split; [|split; reflexivity]].
  - intros below rest a b o.
    cbn [loop]. rewrite step_push_int. cbn [bind].
    rewrite step_push_int. cbn [bind].
    rewrite <- app_assoc. cbn [app].
    rewrite step_operator.
    destruct (Spec.apply o a b); reflexivity.
  - intros below a b.
    change op_minus with (operator Grammar.op_minus).
    now rewrite step_operator.
Qed.

(** C6, where the code departs from it: a string literal whose text is
    [+] comes out of [string] as the very value [op_plus] returns, and the
    loop of [expression] takes it for the operator: [^{ 0o1 0o2 @"+" }]
    evaluates to 3, and so does [^{ 0o1 0o2 P }] after [set P = @"+"];
    [^{ @"mod" }] fails for want of operands. A string pushed as data would
    leave three values on the stack in the first two and be the result of
    the third. *)
Theorem string_literal_taken_for_operator :
  string (quoted "+") = op_plus
  /\ parse Examples.plus_as_text = Ok [("A", VInt 3)]
  /\ parse Examples.plus_by_reference = Ok [("P", VStr "+"); ("A", VInt 3)]
  /\ parse Examples.mod_as_text = Raise (Not_enough_operands (VStr "mod")).
Proof. repeat split. Qed.

(** C7: [expression] fails for want of operands when an operator is
    reached with fewer than two values on the stack, fails with the type
    error when one of the two popped operands is not an Integer, fails with
    the stack error when the tokens are used up and the stack does not hold
    exactly one value (none, for the empty expression), and returns the
    value otherwise. *)
Theorem expression_errors :
  (forall (pre post stack : list Value) (token : Value),
      Py.in_ token operators = true ->
      loop pre [] = Ok stack ->
      (List.length stack < 2)%nat ->
      expression (pre ++ token :: post) = Raise (Not_enough_operands token))
  /\ (forall (pre post below : list Value) (a b token : Value),
         Py.in_ token operators = true ->
         loop pre [] = Ok (below ++ [a; b]) ->
         Py.isinstance_int a = false \/ Py.isinstance_int b = false ->
         expression (pre ++ token :: post)
         = Raise (Math_only_for_integers a b))
  /\ (forall (tokens stack : list Value),
         loop tokens [] = Ok stack ->
         List.length stack <> 1%nat ->
         expression tokens = Raise (Expression_error stack))
  /\ expression [] = Raise (Expression_error [])
  /\ (forall (tokens : list Value) (v : Value),
         loop tokens [] = Ok [v] -> expression tokens = Ok v).
Proof.
  repeat split.
  - intros pre post stack token Hop Hpre Hlen.
    eapply loop_raise_at; eauto using step_too_few.
  - intros pre post below a b token Hop Hpre Hty.
    eapply loop_raise_at; eauto using step_not_integers.
  - intros tokens stack Hloop Hlen. unfold expression.
    rewrite Hloop. cbn [bind].
    destruct stack as [|v [|w stack]]; try reflexivity.
    now contradiction Hlen.
  - intros tokens v Hloop. unfold expression. now rewrite Hloop.
Qed.

Lemma expression_errors_witness :
  expression [VInt 1; VStr "+"; VInt 2]
  = Raise (Not_enough_operands (VStr "+"))
  /\ expression [VStr "a"; VInt 1; VStr "*"]
     = Raise (Math_only_for_integers (VStr "a") (VInt 1))
  /\ expression [VInt 1; VInt 2]
     = Raise (Expression_error [VInt 1; VInt 2])
  /\ expression [VInt 1; VInt 2; VStr "+"] = Ok (VInt 3).
Proof.
  destruct expression_errors as (H1 & H2 & H3 & _ & H4).
  split; [|split; [|split]].
  - apply (H1 [VInt 1] [VInt 2] [VInt 1] (VStr "+"));
      [reflexivity | reflexivity | cbn; lia].
  - apply (H2 [VStr "a"; VInt 1] [] [] (VStr "a") (VInt 1) (VStr "*"));
      [reflexivity | reflexivity | left; reflexivity].
  - apply (H3 [VInt 1; VInt 2] [VInt 1; VInt 2]);
      [reflexivity | cbn; lia].
  - apply (H4 [VInt 1; VInt 2; VStr "+"] (VInt 3)). reflexivity.
Defined.

(** ** The constant table *)

Section Table.

Lemma getitem_setitem (d : Py.dict) (k : str) (v : Value) :
  Py.getitem (Py.setitem d k v) k = Some v.
Proof.
  induction d as [|[k' v'] d IH]; cbn [Py.setitem Py.getitem].
  - now rewrite String.eqb_refl.
  - destruct (String.eqb k' k) eqn:E; cbn [Py.getitem]; now rewrite E.
Qed.

Lemma getitem_setitem_other (d : Py.dict) (k k' : str) (v : Value) :
  k <> k' -> Py.getitem (Py.setitem d k v) k' = Py.getitem d k'.
Proof.
  intros Hne.
  induction d as [|[k0 v0] d IH]; cbn [Py.setitem Py.getitem].
  - apply String.eqb_neq in Hne. now rewrite Hne.
  - destruct (String.eqb k0 k) eqn:E; cbn [Py.getitem].
    + apply String.eqb_eq in E. subst k0.
      apply String.eqb_neq in Hne. now rewrite Hne.
    + now rewrite IH.
Qed.

Lemma contains_keys (d : Py.dict) (k : str) :
  Py.contains d k = existsb (String.eqb k) (Py.keys d).
Proof.
  unfold Py.contains.
  induction d as [|[k' v'] d IH]; cbn [Py.getitem Py.keys map fst existsb];
    [reflexivity|].
  rewrite (String.eqb_sym k k').
  destruct (String.eqb k' k); [reflexivity | exact IH].
Qed.

(** Assigning to a key that is present leaves the order of the keys as it
    is; a new key goes to the end. *)
Lemma keys_setitem (d : Py.dict) (k : str) (v : Value) :
  Py.keys (Py.setitem d k v)
  = if Py.contains d k then Py.keys d else Py.keys d ++ [k].
Proof.
  unfold Py.contains, Py.keys.
  induction d as [|[k' v'] d IH]; cbn [Py.setitem Py.getitem map fst app];
    [reflexivity|].
  destruct (String.eqb k' k) eqn:E; cbn [map fst]; [reflexivity|].
  rewrite IH. now destruct (Py.getitem d k).
Qed.

Lemma keys_setitem_NoDup (d : Py.dict) (k : str) (v : Value) :
  NoDup (Py.keys d) -> NoDup (Py.keys (Py.setitem d k v)).
Proof.
  intros Hd. rewrite keys_setitem, contains_keys.
  destruct (existsb (String.eqb k) (Py.keys d)) eqn:E; [exact Hd|].
  apply NoDup_app; [exact Hd | repeat constructor; intros [] |].
  intros x Hx [->|[]].
  assert (existsb (String.eqb x) (Py.keys d) = true); [|congruence].
  apply existsb_exists. exists x. split; [exact Hx | apply String.eqb_refl].
Qed.

(** With distinct keys, the entries under a key are the one [getitem]
    finds. *)
Lemma entries_of_key (d : Py.dict) (k : str) (v : Value) :
  NoDup (Py.keys d) ->
  Py.getitem d k = Some v ->
  filter (fun entry => String.eqb (fst entry) k) d = [(k, v)].
Proof.
  induction d as [|[k' v'] d IH]; cbn [Py.getitem Py.keys map fst filter];
    [discriminate|].
  intros Hnd Hget. apply NoDup_cons_iff in Hnd as [Hnotin Hnd].
  destruct (String.eqb k' k) eqn:E.
  - apply String.eqb_eq in E. subst k'. injection Hget as ->. f_equal.
    rewrite <- (filter_false d). apply filter_ext_in.
    intros [k1 v1] Hin. cbn [fst].
    apply String.eqb_neq. intros ->. apply Hnotin.
    change k with (fst (k, v1)). now apply in_map.
  - now apply IH.
Qed.

Lemma statements_app (before after : Grammar.start) :
  forall self,
    statements self (before ++ after)
    = self' <- statements self before ;; statements self' after.
Proof.
  induction before as [|s before IH]; intros self; cbn [app statements];
    [reflexivity|].
  destruct (transform self (Grammar.val s)) as [v|e]; cbn [bind];
    [apply IH | reflexivity].
Qed.

Lemma statements_NoDup (doc : Grammar.start) :
  forall self d,
    NoDup (Py.keys self) -> statements self doc = Ok d -> NoDup (Py.keys d).
Proof.
  induction doc as [|s doc IH]; intros self d Hnd; cbn [statements].
  - now intros [= <-].
  - destruct (transform self (Grammar.val s)) as [v|e]; cbn [bind];
      [|discriminate].
    apply IH. now apply keys_setitem_NoDup.
Qed.

(** Statements that do not declare a name leave its entry as it is. *)
Lemma statements_getitem_other (doc : Grammar.start) (name : str) :
  ~ In name (map Grammar.NAME doc) ->
  forall self d,
    statements self doc = Ok d -> Py.getitem d name = Py.getitem self name.
Proof.
  induction doc as [|s doc IH]; intros Hnotin self d; cbn [statements].
  - now intros [= <-].
  - destruct (transform self (Grammar.val s)) as [v|e]; cbn [bind];
      [|discriminate].
    intros H. cbn [map] in Hnotin.
    rewrite (IH (fun Hin => Hnotin (or_intror Hin)) _ _ H).
    unfold constant_decl. apply getitem_setitem_other.
    intros E. apply Hnotin. now left.
Qed.

Lemma name_ref_found (self : Py.dict) (name : str) (v : Value) :
  Py.getitem self name = Some v ->
  transform self (Grammar.name_ref name) = Ok v.
Proof.
  intros H. cbn [transform]. unfold name_ref, Py.contains. now rewrite H.
Qed.

Lemma name_ref_absent (self : Py.dict) (name : str) :
  Py.getitem self name = None ->
  transform self (Grammar.name_ref name) = Raise (Undefined_constant name).
Proof.
  intros H. cbn [transform]. unfold name_ref, Py.contains. now rewrite H.
Qed.

End Table.

(** C3: a statement is resolved with the table as it stands before it and
    then stored. A reference to a name in the table yields the value the
    latest declaration of the name stored; a reference to an absent name
    raises the undefined-constant error; [set A = ^{ A 0o1 + }] raises it
    when [A] is not yet in the table, and adds one to the earlier [A] when
    it is. *)
Theorem name_ref_sees_earlier_statements :
  (forall (self : Py.dict) (s : Grammar.constant_decl) (rest : Grammar.start),
      statements self (s :: rest)
      = v <- transform self (Grammar.val s) ;;
        statements (Py.setitem self (Grammar.NAME s) v) rest)
  /\ (forall (self self' : Py.dict) (name : str) (v : Grammar.value)
             (r : Value) (later : Grammar.start),
         transform self v = Ok r ->
         ~ In name (map Grammar.NAME later) ->
         statements self (Grammar.set name v :: later) = Ok self' ->
         transform self' (Grammar.name_ref name) = Ok r)
  /\ (forall (self : Py.dict) (name : str) (r : Value),
         Py.getitem self name = Some r ->
         transform self (Grammar.name_ref name) = Ok r)
  /\ (forall (self : Py.dict) (name : str),
         Py.getitem self name = None ->
         transform self (Grammar.name_ref name)
         = Raise (Undefined_constant name))
  /\ (forall (self : Py.dict) (A : str) (rest : Grammar.start),
         Py.getitem self A = None ->
         statements self (Grammar.set A (Examples.successor_of A) :: rest)
         = Raise (Undefined_constant A))
  /\ parse [Grammar.set "A" (Examples.successor_of "A")]
     = Raise (Undefined_constant "A")
  /\ (forall (self : Py.dict) (A : str) (x : Z),
         Py.getitem self A = Some (VInt x) ->
         statements self [Grammar.set A (Examples.successor_of A)]
         = Ok (Py.setitem self A (VInt (x + 1)))).
Proof.
  split; [reflexivity|].
  split.
  { intros self self' name v r later Hv Hlater Hrun.
    cbn [statements Grammar.val Grammar.NAME] in Hrun.
    rewrite Hv in Hrun. cbn [bind] in Hrun.
    apply name_ref_found.
    rewrite (statements_getitem_other later name Hlater _ _ Hrun).
    apply getitem_setitem. }
  split; [exact name_ref_found|].
  split; [exact name_ref_absent|].
  split.
  { intros self A rest Habsent.
    cbn [statements Grammar.val Examples.successor_of transform mapM].
    unfold name_ref, Py.contains. now rewrite Habsent. }
  split; [reflexivity|].
  intros self A x Hget.
  cbn [statements Grammar.val Grammar.NAME Examples.successor_of transform
       mapM].
  unfold name_ref, Py.contains. rewrite Hget. cbn [bind value].
  reflexivity.
Qed.

Lemma name_ref_sees_earlier_statements_witness :
  transform [("A", VInt 2); ("B", VInt 1)] (Grammar.name_ref "A") = Ok (VInt 2)
  /\ transform [("B", VInt 1)] (Grammar.name_ref "A")
     = Raise (Undefined_constant "A")
  /\ statements [("A", VInt 7)] [Grammar.set "A" (Examples.successor_of "A")]
     = Ok [("A", VInt 8)].
Proof.
  destruct name_ref_sees_earlier_statements
    as (_ & H2 & _ & H3 & _ & _ & H6).
  split; [|split].
  - apply (H2 [("A", VInt 5)] [("A", VInt 2); ("B", VInt 1)] "A"
              (Grammar.number "0o2") (VInt 2)
              [Grammar.set "B" (Grammar.number "0o1")]).
    + reflexivity.
    + cbn. intros [H|[]]. discriminate H.
    + reflexivity.
  - apply (H3 [("B", VInt 1)] "A"). reflexivity.
  - apply (H6 [("A", VInt 7)] "A" 7). reflexivity.
Defined.

(** C4: when a document declares a name, once or several times, and
    compiles, the mapping holds exactly one entry for the name and its
    value is the one the last declaration of the name resolved to: the
    earlier values are overwritten. *)
Theorem last_declaration_wins (before after : Grammar.start) (name : str)
    (v : Grammar.value) (self d : Py.dict) (r : Value) :
  statements init before = Ok self ->
  transform self v = Ok r ->
  ~ In name (map Grammar.NAME after) ->
  parse (before ++ Grammar.set name v :: after) = Ok d ->
  Py.getitem d name = Some r
  /\ filter (fun entry => String.eqb (fst entry) name) d = [(name, r)].
Proof.
  intros Hbefore Hv Hafter Hparse.
  unfold parse, start in Hparse.
  rewrite statements_app, Hbefore in Hparse.
  cbn [bind statements Grammar.val Grammar.NAME] in Hparse.
  rewrite Hv in Hparse. cbn [bind] in Hparse.
  destruct (statements (constant_decl self name r) after) as [d'|e] eqn:Hrun;
    [|discriminate].
  injection Hparse as <-.
  assert (Hget : Py.getitem d' name = Some r).
  { rewrite (statements_getitem_other after name Hafter _ _ Hrun).
    apply getitem_setitem. }
  split; [exact Hget|].
  apply entries_of_key; [|exact Hget].
  apply (statements_NoDup after _ _ (keys_setitem_NoDup self name r
           (statements_NoDup before init self (NoDup_nil _) Hbefore)) Hrun).
Qed.

Lemma last_declaration_wins_witness :
  Py.getitem [("A", VInt 3); ("B", VInt 2)] "A" = Some (VInt 3)
  /\ filter (fun entry => String.eqb (fst entry) "A")
       [("A", VInt 3); ("B", VInt 2)] = [("A", VInt 3)].
Proof.
  apply (last_declaration_wins
           [Grammar.set "A" (Grammar.number "0o1");
            Grammar.set "B" (Grammar.number "0o2")]
           [] "A" (Grammar.number "0o3")
           [("A", VInt 1); ("B", VInt 2)]).
  - reflexivity.
  - reflexivity.
  - intros [].
  - reflexivity.
Defined.

(** ** The order of the mapping *)

Section Order.

Lemma filter_filter {A} (p q : A -> bool) (l : list A) :
  filter p (filter q l) = filter (fun x => q x && p x) l.
Proof.
  induction l as [|x l IH]; cbn [filter]; [reflexivity|].
  destruct (q x); cbn [filter andb]; [|exact IH].
  destruct (p x); now rewrite IH.
Qed.

(** The keys of the table after some statements: those it had, in their
    order, then the new names in the order of their first declaration. *)
Lemma statements_keys (doc : Grammar.start) :
  forall self d,
    statements self doc = Ok d ->
    Py.keys d
    = Py.keys self
      ++ filter (fun n => negb (existsb (String.eqb n) (Py.keys self)))
           (Spec.order_of_first_write (map Grammar.NAME doc)).
Proof.
  induction doc as [|s doc IH]; intros self d; cbn [statements].
  - intros [= <-]. cbn. now rewrite app_nil_r.
  - destruct (transform self (Grammar.val s)) as [v|e]; cbn [bind];
      [|discriminate].
    intros Hrun. rewrite (IH _ _ Hrun). unfold constant_decl.
    rewrite keys_setitem, contains_keys.
    cbn [map Spec.order_of_first_write filter].
    set (n := Grammar.NAME s).
    set (K := Py.keys self).
    set (X := Spec.order_of_first_write (map Grammar.NAME doc)).
    rewrite filter_filter.
    destruct (existsb (String.eqb n) K) eqn:E; cbn [negb].
    + f_equal. apply filter_ext. intros x.
      destruct (String.eqb n x) eqn:Enx; cbn [negb andb]; [|reflexivity].
      apply String.eqb_eq in Enx. subst x. now rewrite E.
    + rewrite <- app_assoc. cbn [app]. f_equal. f_equal.
      apply filter_ext. intros x.
      rewrite existsb_app. cbn [existsb].
      rewrite orb_false_r, negb_orb, (String.eqb_sym x n).
      apply andb_comm.
Qed.

End Order.

(** C5, as the code has it: in the final mapping every name stands where
    it was declared first; declaring it again replaces its value and leaves
    its place. *)
Theorem redeclared_name_keeps_first_place (doc : Grammar.start)
    (d : Py.dict) :
  parse doc = Ok d ->
  Py.keys d = Spec.order_of_first_write (map Grammar.NAME doc).
Proof.
  unfold parse, start. intros H.
  destruct (statements init doc) as [d'|e] eqn:Hrun; [|discriminate].
  injection H as <-.
  rewrite (statements_keys doc _ _ Hrun).
  cbn [init Py.keys map app existsb negb]. apply filter_true.
Qed.

Lemma redeclared_name_keeps_first_place_witness :
  Py.keys [("A", VInt 3); ("B", VInt 2)] = ["A"; "B"]%string.
Proof.
  apply (redeclared_name_keeps_first_place Examples.redeclared).
  reflexivity.
Defined.

(** C5, as the specification words it, fails: [set A = 0o1 set B = 0o2
    set A = 0o3] compiles to a mapping whose keys are [A], [B] in this
    order, and the order of last writes is [B], [A]. *)
Lemma redeclared_name_not_at_last_place :
  parse Examples.redeclared = Ok [("A", VInt 3); ("B", VInt 2)]
  /\ Spec.order_of_last_write (map Grammar.NAME Examples.redeclared)
     = ["B"; "A"]%string
  /\ ~ (forall (doc : Grammar.start) (d : Py.dict),
           parse doc = Ok d ->
           Py.keys d = Spec.order_of_last_write (map Grammar.NAME doc)).
Proof.
  split; [reflexivity|]. split; [reflexivity|].
  intros H. specialize (H Examples.redeclared _ eq_refl). discriminate H.
Qed.

(** ** Exceptions abort the compilation *)

Section Abort.

Lemma mapM_raise {A B} (f : A -> result B) (before after : list A) (x : A)
    (ys : list B) (e : exn) :
  mapM f before = Ok ys ->
  f x = Raise e ->
  mapM f (before ++ x :: after) = Raise e.
Proof.
  revert ys.
  induction before as [|a before IH]; intros ys Hbefore Hx; cbn [app mapM].
  - now rewrite Hx.
  - cbn [mapM] in Hbefore.
    destruct (f a) as [y|e']; cbn [bind] in *; [|discriminate].
    destruct (mapM f before) as [ys'|e'] eqn:E; cbn [bind] in *;
      [|discriminate].
    now rewrite (IH ys' eq_refl Hx).
Qed.

Lemma transform_expression (self : Py.dict)
    (body : list (Grammar.value + Grammar.operator)) :
  transform self (Grammar.expression body)
  = tokens <- mapM (expr_item self) body ;;
    v <- expression (expr_body tokens) ;; Ok (value v).
Proof. reflexivity. Qed.

(** An exception raised where the walk has come to is the outcome of the
    whole value. *)
Lemma reaches_raise (self : Py.dict) (t sub : Grammar.value) (e : exn) :
  reaches self t sub ->
  transform self sub = Raise e ->
  transform self t = Raise e.
Proof.
  intros Hreach Hsub.
  induction Hreach as [t | before after x sub vs Hbefore _ IH
                      | before after x sub vs Hbefore _ IH]; [exact Hsub | |].
  - cbn [transform].
    now rewrite (mapM_raise _ before after x vs e Hbefore (IH Hsub)).
  - rewrite transform_expression.
    now rewrite (mapM_raise _ before after (inl x) vs e Hbefore (IH Hsub)).
Qed.

(** An exception raised by a statement is the outcome of the document: no
    table is returned. *)
Lemma statements_raise (before after : Grammar.start) (name : str)
    (v : Grammar.value) (self0 self : Py.dict) (e : exn) :
  statements self0 before = Ok self ->
  transform self v = Raise e ->
  statements self0 (before ++ Grammar.set name v :: after) = Raise e.
Proof.
  intros Hbefore Hv. rewrite statements_app, Hbefore.
  cbn [bind statements Grammar.val]. now rewrite Hv.
Qed.

End Abort.

(** C8: an operator [/] or [mod] applied to Integers [a] and [b = 0] raises
    the division-by-zero error, which is the outcome of the expression, of
    the value around it and of the whole compilation: no mapping is
    returned. *)
Theorem division_by_zero_aborts :
  (forall (below : list Value) (a : Z) (token : Value),
      token = op_div \/ token = op_mod ->
      step (below ++ [VInt a; VInt 0]) token = Raise ZeroDivisionError)
  /\ (forall (pre post below : list Value) (a : Z) (token : Value),
         token = op_div \/ token = op_mod ->
         loop pre [] = Ok (below ++ [VInt a; VInt 0]) ->
         expression (pre ++ token :: post) = Raise ZeroDivisionError)
  /\ (forall (before after : Grammar.start) (name : str) (v : Grammar.value)
             (self : Py.dict) (body : list (Grammar.value + Grammar.operator))
             (pre post below : list Value) (a : Z) (token : Value),
         statements init before = Ok self ->
         reaches self v (Grammar.expression body) ->
         mapM (expr_item self) body = Ok (pre ++ token :: post) ->
         token = op_div \/ token = op_mod ->
         loop pre [] = Ok (below ++ [VInt a; VInt 0]) ->
         parse (before ++ Grammar.set name v :: after)
         = Raise ZeroDivisionError).
Proof.
  assert (Hstep : forall below a token,
             token = op_div \/ token = op_mod ->
             step (below ++ [VInt a; VInt 0]) token = Raise ZeroDivisionError).
  { intros below a token [->| ->].
    - change op_div with (operator Grammar.op_div).
      now rewrite step_operator.
    - change op_mod with (operator Grammar.op_mod).
      now rewrite step_operator. }
  assert (Hexpr : forall pre post below a token,
             token = op_div \/ token = op_mod ->
             loop pre [] = Ok (below ++ [VInt a; VInt 0]) ->
             expression (pre ++ token :: post) = Raise ZeroDivisionError).
  { intros pre post below a token Htoken Hpre.
    eapply loop_raise_at; eauto. }
  split; [exact Hstep|]. split; [exact Hexpr|].
  intros before after name v self body pre post below a token
         Hbefore Hreach Hbody Htoken Hpre.
  unfold parse.
  rewrite (statements_raise before after name v init self ZeroDivisionError);
    [reflexivity | exact Hbefore |].
  apply (reaches_raise self v (Grammar.expression body)); [exact Hreach|].
  rewrite transform_expression, Hbody. cbn [bind]. unfold expr_body.
  now rewrite (Hexpr pre post below a token Htoken Hpre).
Qed.

Lemma division_by_zero_aborts_witness :
  parse
    [Grammar.set "A" (Grammar.number "0o5");
     Grammar.set "B"
       (Grammar.array
          [Grammar.name_ref "A";
           Grammar.expression
             [inl (Grammar.name_ref "A"); inl (Grammar.number "0o0");
              inr Grammar.op_mod; inl (Grammar.number "0o1")]]);
     Grammar.set "C" (Grammar.number "0o1")]
  = Raise ZeroDivisionError.
Proof.
  destruct division_by_zero_aborts as (_ & _ & H).
  apply (H [Grammar.set "A" (Grammar.number "0o5")]
           [Grammar.set "C" (Grammar.number "0o1")]
           "B"
           (Grammar.array
              [Grammar.name_ref "A";
               Grammar.expression
                 [inl (Grammar.name_ref "A"); inl (Grammar.number "0o0");
                  inr Grammar.op_mod; inl (Grammar.number "0o1")]])
           [("A", VInt 5)]
           [inl (Grammar.name_ref "A"); inl (Grammar.number "0o0");
            inr Grammar.op_mod; inl (Grammar.number "0o1")]
           [VInt 5; VInt 0] [VInt 1] [] 5 op_mod).
  - reflexivity.
  - apply (reaches_array [("A", VInt 5)] [Grammar.name_ref "A"] []
             _ _ [VInt 5]); [reflexivity | apply reaches_here].
  - reflexivity.
  - right; reflexivity.
  - reflexivity.
Defined.

(** ** Which exceptions can come from where *)

Section Exceptions.

Lemma mapM_raise_inv {A B} (f : A -> result B) (l : list A) (e : exn) :
  mapM f l = Raise e -> exists x, In x l /\ f x = Raise e.
Proof.
  induction l as [|a l IH]; cbn [mapM]; [discriminate|].
  destruct (f a) as [y|e'] eqn:Ea; cbn [bind].
  - destruct (mapM f l) as [ys|e'] eqn:El; cbn [bind]; [discriminate|].
    intros [= ->]. destruct (IH eq_refl) as (x & Hin & Hx).
    exists x. split; [now right | exact Hx].
  - intros [= ->]. exists a. split; [now left | exact Ea].
Qed.

Lemma pop_inv (l front : list Value) (x : Value) :
  Py.pop l = Ok (x, front) -> l = front ++ [x].
Proof.
  unfold Py.pop. destruct (rev l) as [|y r] eqn:E; [discriminate|].
  intros [= -> <-]. apply (f_equal (@rev Value)) in E.
  rewrite rev_involutive in E. exact E.
Qed.

(** What a turn of the loop can raise: the three errors of [expression]
    or the division by zero; [pop] finds the stack long enough. *)
Lemma step_raises (stack : list Value) (token : Value) (e : exn) :
  step stack token = Raise e ->
  e = Not_enough_operands token
  \/ (exists a b, e = Math_only_for_integers a b)
  \/ e = ZeroDivisionError.
Proof.
  unfold step.
  destruct (Py.in_ token operators); [|discriminate].
  destruct (List.length stack <? 2)%nat eqn:Hlen; [intros [= <-]; now left|].
  apply Nat.ltb_ge in Hlen.
  destruct (Py.pop stack) as [[b s1]|e1] eqn:E1; cbn [bind].
  - destruct (Py.pop s1) as [[a s2]|e2] eqn:E2; cbn [bind].
    + destruct a as [sa|x|la], b as [sb|y|lb];
        try (intros [= <-]; right; left; eauto).
      unfold Py.floordiv, Py.mod_.
      repeat match goal with
             | |- context [if ?c then _ else _] => destruct c
             end; cbn [bind]; try discriminate;
        intros [= <-]; right; right; reflexivity.
    + apply pop_inv in E1. subst stack.
      unfold Py.pop in E2. destruct (rev s1) as [|y r] eqn:Er;
        [|discriminate].
      apply (f_equal (@rev Value)) in Er. rewrite rev_involutive in Er.
      subst s1. cbn in Hlen. lia.
  - unfold Py.pop in E1. destruct (rev stack) as [|y r] eqn:Er;
      [|discriminate].
    apply (f_equal (@rev Value)) in Er. rewrite rev_involutive in Er.
    subst stack. cbn in Hlen. lia.
Qed.

Lemma loop_raises (tokens : list Value) :
  forall stack e,
    loop tokens stack = Raise e ->
    (exists token, e = Not_enough_operands token)
    \/ (exists a b, e = Math_only_for_integers a b)
    \/ e = ZeroDivisionError.
Proof.
  induction tokens as [|token tokens IH]; intros stack e; cbn [loop];
    [discriminate|].
  destruct (step stack token) as [stack'|e'] eqn:E; cbn [bind].
  - apply IH.
  - intros [= ->]. destruct (step_raises _ _ _ E) as [->|[H|H]]; eauto.
Qed.

Lemma expression_raises (tokens : list Value) (e : exn) :
  expression tokens = Raise e -> not_invalid_octal e.
Proof.
  unfold expression.
  destruct (loop tokens []) as [stack|e'] eqn:E; cbn [bind].
  - destruct stack as [|v [|w stack]]; intros [= <-] text; discriminate.
  - intros [= ->] text.
    destruct (loop_raises _ _ _ E) as [[t ->]|[(a & b & ->)| ->]];
      discriminate.
Qed.

Lemma transform_raises (self : Py.dict) (t : Grammar.value) :
  Grammar.lexed t = true ->
  forall e, transform self t = Raise e -> not_invalid_octal e.
Proof.
  induction t as [items IH | text | text | body IH | name]
    using Grammar.value_children_ind;
    cbn [Grammar.lexed]; intros Hlexed e.
  - cbn [transform].
    destruct (mapM (transform self) items) as [vs|e'] eqn:E; cbn [bind];
      [discriminate|].
    intros [= ->]. apply mapM_raise_inv in E as (x & Hin & Hx).
    rewrite Forall_forall in IH. rewrite forallb_forall in Hlexed.
    exact (IH x Hin (Hlexed x Hin) e Hx).
  - discriminate.
  - cbn [transform].
    destruct (number_lexed text Hlexed) as [n ->]. discriminate.
  - rewrite transform_expression.
    destruct (mapM (expr_item self) body) as [tokens|e'] eqn:E; cbn [bind].
    + destruct (expression (expr_body tokens)) as [v|e'] eqn:Ee; cbn [bind];
        [discriminate|].
      intros [= ->]. exact (expression_raises _ _ Ee).
    + intros [= ->]. apply mapM_raise_inv in E as ([x|o] & Hin & Hx);
        [|discriminate].
      rewrite Forall_forall in IH. rewrite forallb_forall in Hlexed.
      exact (IH (inl x) Hin (Hlexed (inl x) Hin) e Hx).
  - cbn [transform]. unfold name_ref.
    destruct (Py.contains self name); [destruct (Py.getitem self name)|];
      cbn [bind]; try discriminate; intros [= <-] text; discriminate.
Qed.

Lemma statements_raises (doc : Grammar.start) :
  forallb (fun s => Grammar.lexed (Grammar.val s)) doc = true ->
  forall self e, statements self doc = Raise e -> not_invalid_octal e.
Proof.
  induction doc as [|s doc IH]; cbn [forallb statements]; intros Hlexed self e;
    [discriminate|].
  apply andb_true_iff in Hlexed as [Hs Hdoc].
  destruct (transform self (Grammar.val s)) as [v|e'] eqn:E; cbn [bind].
  - apply (IH Hdoc).
  - intros [= ->]. exact (transform_raises self _ Hs e E).
Qed.

End Exceptions.

(** C10: on the text of a number token, that is a text the lexer rule
    [0[oO][0-7]+] matched, [number] returns an Integer: [int] does not raise
    and the branch that reports an invalid octal number is not taken; so no
    document whose number tokens the lexer matched compiles to that
    error. *)
Theorem number_validation_never_fires :
  (forall text : str,
      Grammar.number_re text = true ->
      (exists n, number text = Ok (VInt n))
      /\ forall t, number text <> Raise (Invalid_octal_number t))
  /\ (forall doc : Grammar.start,
         forallb (fun s => Grammar.lexed (Grammar.val s)) doc = true ->
         forall t, parse doc <> Raise (Invalid_octal_number t)).
Proof.
  split.
  - intros text H. destruct (number_lexed text H) as [n E].
    split; [now exists n|]. intros t. rewrite E. discriminate.
  - intros doc Hlexed t. unfold parse.
    destruct (statements init doc) as [d|e] eqn:E; cbn [bind];
      [discriminate|].
    intros [= ->]. exact (statements_raises doc Hlexed init _ E t eq_refl).
Qed.

Lemma number_validation_never_fires_witness :
  Grammar.number_re "0o17" = true
  /\ (exists n, number "0o17" = Ok (VInt n))
  /\ parse [Grammar.set "A" (Grammar.array [Grammar.number "0O7"])]
     <> Raise (Invalid_octal_number "0O7").
Proof.
  split; [reflexivity|]. split.
  - exact (proj1 (proj1 number_validation_never_fires "0o17" eq_refl)).
  - exact (proj2 number_validation_never_fires
             [Grammar.set "A" (Grammar.array [Grammar.number "0O7"])]
             eq_refl "0O7").
Defined.

(** * Further properties of the callbacks *)

(** ** String literals *)

Section Strings.

Lemma substring_whole_prefix (b r : str) :
  substring 0 (String.length b) (b ++ r)%string = b.
Proof.
  induction b as [|c b IH]; cbn [String.length String.append substring].
  - now destruct r.
  - now rewrite IH.
Qed.

Lemma length_with_quote (s : str) :
  String.length (s ++ dquote)%string = S (String.length s).
Proof.
  induction s as [|c s IH]; cbn [String.length String.append];
    [reflexivity | now rewrite IH].
Qed.

Lemma string_quoted (s : str) : string (quoted s) = VStr s.
Proof.
  unfold string, Py.slice_2_m1, quoted.
  change ("@" ++ dquote ++ s ++ dquote)%string
    with (String "@" (String (ascii_of_nat 34) (s ++ dquote)%string)).
  cbn [String.length]. rewrite length_with_quote.
  cbn [Nat.sub substring]. rewrite Nat.sub_0_r.
  now rewrite substring_whole_prefix.
Qed.

Lemma string_tail_inv (tail : str) :
  Lexer.string_tail tail = true ->
  exists s, tail = (s ++ dquote)%string /\ Lexer.quote_free s = true.
Proof.
  induction tail as [|c tail IH]; [discriminate|].
  destruct tail as [|c' tail'].
  - cbn [Lexer.string_tail]. intros H. apply Ascii.eqb_eq in H. subst c.
    now exists EmptyString.
  - intros H.
    change (negb (Lexer.is_dquote c)
            && Lexer.string_tail (String c' tail') = true) in H.
    apply andb_true_iff in H as [Hc Htail].
    destruct (IH Htail) as (s & -> & Hs).
    exists (String c s). split; [reflexivity|].
    cbn [Lexer.quote_free]. now rewrite Hc, Hs.
Qed.

End Strings.

(** X1: [string] returns the text between the opening at sign and quote
    and the closing quote, unchanged: for every text [s] the token around
    [s] gives [s], and every token the lexer rule matches is the quoting
    of what [string] returns, which holds no double quote. *)
Theorem string_is_text_between_quotes :
  (forall s : str, string (quoted s) = VStr s)
  /\ (forall text : str,
         Lexer.string_re text = true ->
         exists s,
           text = quoted s
           /\ string text = VStr s
           /\ Lexer.quote_free s = true).
Proof.
  split; [exact string_quoted|].
  intros text H.
  destruct text as [|a rest]; [discriminate H|].
  destruct a as [[] [] [] [] [] [] [] []]; try discriminate H.
  destruct rest as [|q tail]; [discriminate H|].
  cbn [Lexer.string_re] in H.
  apply andb_true_iff in H as [Hq Htail].
  apply Ascii.eqb_eq in Hq. subst q.
  destruct (string_tail_inv tail Htail) as (s & -> & Hs).
  exists s. split; [reflexivity|]. split; [|exact Hs].
  apply string_quoted.
Qed.

Lemma string_is_text_between_quotes_witness :
  Lexer.string_re (quoted "a b") = true
  /\ exists s,
      quoted "a b" = quoted s
      /\ string (quoted "a b") = VStr s
      /\ Lexer.quote_free s = true.
Proof.
  split; [reflexivity|].
  apply (proj2 string_is_text_between_quotes (quoted "a b")). reflexivity.
Defined.

(** ** More on octal literals *)

Section OctalBounds.

Lemma digit_bounds (c : ascii) :
  Grammar.is_octal_digit c = true -> 0 <= Spec.digit c <= 7.
Proof.
  unfold Grammar.is_octal_digit, Spec.digit. intros H.
  apply andb_true_iff in H as [Hlo Hhi].
  apply Nat.leb_le in Hlo. apply Nat.leb_le in Hhi. lia.
Qed.

Lemma base8_bounds (ds : str) :
  Grammar.all_octal ds = true ->
  0 <= Spec.base8 ds < 8 ^ Z.of_nat (String.length ds).
Proof.
  induction ds as [|d ds IH]; cbn [Grammar.all_octal Spec.base8 String.length].
  - intros _. cbn. lia.
  - intros H. apply andb_true_iff in H as [Hd Hds].
    specialize (IH Hds). assert (Hb := digit_bounds d Hd).
    rewrite Nat2Z.inj_succ, Z.pow_succ_r by lia.
    nia.
Qed.

End OctalBounds.

(** X2: a number token with [k] digits resolves to an Integer [n] with
    [0 <= n < 8 ^ k]: no literal is negative. *)
Theorem number_in_range (p : ascii) (digits : str) :
  p = "o"%char \/ p = "O"%char ->
  digits <> EmptyString ->
  Grammar.all_octal digits = true ->
  exists n,
    number (String "0" (String p digits)) = Ok (VInt n)
    /\ 0 <= n < 8 ^ Z.of_nat (String.length digits).
Proof.
  intros Hp Hne Hall. exists (Spec.base8 digits).
  split; [|now apply base8_bounds].
  destruct digits as [|d ds]; [congruence|].
  cbn [Grammar.all_octal] in Hall. apply andb_true_iff in Hall as [Hd Hds].
  now apply number_prefixed.
Qed.

Lemma number_in_range_witness :
  exists n, number "0o777" = Ok (VInt n) /\ 0 <= n < 8 ^ 3.
Proof.
  apply (number_in_range "o"%char "777");
    [left; reflexivity | discriminate | reflexivity].
Defined.

(** X3: the case of the prefix letter and zeros in front of the digits
    make no difference to the Integer a number token resolves to. *)
Theorem number_prefix_and_leading_zero (digits : str) :
  digits <> EmptyString ->
  Grammar.all_octal digits = true ->
  number (String "0" (String "O" digits))
  = number (String "0" (String "o" digits))
  /\ number (String "0" (String "o" (String "0" digits)))
     = number (String "0" (String "o" digits)).
Proof.
  intros Hne Hall.
  destruct digits as [|d ds]; [congruence|].
  cbn [Grammar.all_octal] in Hall.
  apply andb_true_iff in Hall as [Hd Hds].
  rewrite (number_prefixed "O" d ds), (number_prefixed "o" d ds); auto.
  split; [reflexivity|].
  rewrite (number_prefixed "o" "0" (String d ds));
    [ reflexivity | now left | reflexivity | ].
  cbn [Grammar.all_octal]. now rewrite Hd, Hds.
Qed.

Lemma number_prefix_and_leading_zero_witness :
  number "0O17" = number "0o17" /\ number "0o017" = number "0o17".
Proof.
  apply (number_prefix_and_leading_zero "17"); [discriminate | reflexivity].
Defined.

(** ** More on the stack machine *)

Section StackShape.

Lemma In_operators (token : Value) :
  In token operators <-> exists o, token = operator o.
Proof.
  split.
  - cbn. intros [<-|[<-|[<-|[<-|[<-|[]]]]]];
      [exists Grammar.op_plus | exists Grammar.op_minus
      | exists Grammar.op_mult | exists Grammar.op_div
      | exists Grammar.op_mod]; reflexivity.
  - intros [[] ->]; cbn; tauto.
Qed.

Lemma not_In_operators (token : Value) :
  ~ In token operators -> Py.in_ token operators = false.
Proof.
  intros H. destruct (Py.in_ token operators) eqn:E; [|reflexivity].
  exfalso. apply H, In_operators, in_operators, E.
Qed.

Lemma two_on_top (stack : list Value) :
  (2 <= List.length stack)%nat ->
  exists below a b, stack = below ++ [a; b].
Proof.
  intros H. rewrite <- (rev_involutive stack) in *.
  destruct (rev stack) as [|b [|a below]]; cbn in H; try lia.
  exists (rev below), a, b. cbn [rev]. now rewrite <- app_assoc.
Qed.

(** A turn of the loop that succeeds on an operator found two Integers on
    top and left the operator applied to them. *)
Lemma step_operator_inv (stack stack' : list Value) (token : Value) :
  Py.in_ token operators = true ->
  step stack token = Ok stack' ->
  exists o below a b r,
    token = operator o
    /\ stack = below ++ [VInt a; VInt b]
    /\ Spec.apply o a b = Ok r
    /\ stack' = below ++ [VInt r].
Proof.
  intros Hop Hstep.
  destruct (proj1 (in_operators token) Hop) as [o ->].
  destruct (Nat.lt_ge_cases (List.length stack) 2) as [Hlt|Hge].
  { rewrite (step_too_few _ _ Hop Hlt) in Hstep. discriminate. }
  destruct (two_on_top stack Hge) as (below & a & b & ->).
  destruct a as [sa|x|la], b as [sb|y|lb];
    try (rewrite (step_not_integers below _ _ _ Hop) in Hstep;
         [discriminate | cbn; tauto]).
  rewrite step_operator in Hstep.
  destruct (Spec.apply o x y) as [r|e] eqn:E; [|discriminate].
  injection Hstep as <-.
  now exists o, below, x, y, r.
Qed.

Lemma step_nonempty (stack stack' : list Value) (token : Value) :
  step stack token = Ok stack' -> stack' <> [].
Proof.
  destruct (Py.in_ token operators) eqn:Hop; intros H.
  - destruct (step_operator_inv _ _ _ Hop H) as (o & below & a & b & r & _ & _ & _ & ->).
    now destruct below.
  - rewrite (step_push _ _ Hop) in H. injection H as <-. now destruct stack.
Qed.

Lemma loop_snoc (tokens : list Value) (token : Value) (stack : list Value) :
  loop (tokens ++ [token]) stack
  = stack' <- loop tokens stack ;; step stack' token.
Proof.
  rewrite loop_app. destruct (loop tokens stack) as [s|e]; cbn [bind loop];
    [|reflexivity].
  now destruct (step s token).
Qed.

End StackShape.

(** X4: every token that is not one of the five strings [+], [-], [*],
    [/], [mod] is pushed as it is, whatever the stack: an expression of
    such tokens leaves them all on the stack in their order, so one such
    token is the value of the expression and two or more are the stack
    error. *)
Theorem other_tokens_are_pushed :
  (forall (stack : list Value) (token : Value),
      ~ In token operators -> step stack token = Ok (stack ++ [token]))
  /\ (forall (tokens stack : list Value),
         Forall (fun token => ~ In token operators) tokens ->
         loop tokens stack = Ok (stack ++ tokens))
  /\ (forall v : Value, ~ In v operators -> expression [v] = Ok v)
  /\ (forall (v w : Value) (tokens : list Value),
         Forall (fun token => ~ In token operators) (v :: w :: tokens) ->
         expression (v :: w :: tokens)
         = Raise (Expression_error (v :: w :: tokens))).
Proof.
  assert (Hstep : forall stack token,
             ~ In token operators -> step stack token = Ok (stack ++ [token])).
  { intros stack token H. apply step_push, not_In_operators, H. }
  assert (Hloop : forall tokens stack,
             Forall (fun token => ~ In token operators) tokens ->
             loop tokens stack = Ok (stack ++ tokens)).
  { induction tokens as [|t tokens IH]; intros stack H; cbn [loop].
    - now rewrite app_nil_r.
    - apply Forall_cons_iff in H as [Ht Htokens].
      rewrite (Hstep stack t Ht). cbn [bind].
      rewrite (IH _ Htokens), <- app_assoc. reflexivity. }
  split; [exact Hstep|]. split; [exact Hloop|]. split.
  - intros v Hv. unfold expression.
    rewrite (Hloop [v] []); [reflexivity | now constructor].
  - intros v w tokens H. unfold expression.
    now rewrite (Hloop _ [] H).
Qed.

Lemma other_tokens_are_pushed_witness :
  step [VInt 1] (VList [VStr "+"]) = Ok [VInt 1; VList [VStr "+"]]
  /\ expression [VStr "plus"] = Ok (VStr "plus")
  /\ expression [VInt 1; VStr "x"] = Raise (Expression_error [VInt 1; VStr "x"]).
Proof.
  destruct other_tokens_are_pushed as (H1 & _ & H3 & H4).
  assert (Hno : forall token,
             Py.in_ token operators = false -> ~ In token operators).
  { intros token E H. apply In_operators, in_operators in H. congruence. }
  split; [|split].
  - apply (H1 [VInt 1] (VList [VStr "+"])). now apply Hno.
  - apply (H3 (VStr "plus")). now apply Hno.
  - apply (H4 (VInt 1) (VStr "x") []).
    repeat constructor; now apply Hno.
Defined.

(** X5: operands and operators balance. When the loop succeeds each
    operator has taken one value off the stack and each other token has
    added one; an expression that evaluates has [n] operators and [n + 1]
    other tokens. *)
Theorem operands_and_operators_balance :
  (forall (tokens stack stack' : list Value),
      loop tokens stack = Ok stack' ->
      (List.length stack' + 2 * count_operators tokens
       = List.length stack + List.length tokens)%nat)
  /\ (forall (tokens : list Value) (v : Value),
         expression tokens = Ok v ->
         List.length tokens = (2 * count_operators tokens + 1)%nat).
Proof.
  assert (Hloop : forall tokens stack stack',
             loop tokens stack = Ok stack' ->
             (List.length stack' + 2 * count_operators tokens
              = List.length stack + List.length tokens)%nat).
  { unfold count_operators.
    induction tokens as [|t tokens IH]; intros stack stack'; cbn [loop].
    - intros [= <-]. cbn. lia.
    - destruct (step stack t) as [s|e] eqn:E; cbn [bind]; [|discriminate].
      intros H. specialize (IH _ _ H). cbn [filter List.length].
      destruct (Py.in_ t operators) eqn:Hop.
      + destruct (step_operator_inv _ _ _ Hop E)
          as (o & below & a & b & r & _ & -> & _ & ->).
        rewrite length_app in *. cbn [List.length] in *. lia.
      + rewrite (step_push _ _ Hop) in E. injection E as <-.
        rewrite length_app in IH. cbn [List.length] in *. lia. }
  split; [exact Hloop|].
  intros tokens v H. unfold expression in H.
  destruct (loop tokens []) as [stack|e] eqn:E; cbn [bind] in H;
    [|discriminate].
  destruct stack as [|v' [|w stack]]; try discriminate.
  specialize (Hloop _ _ _ E). cbn [List.length] in Hloop. lia.
Qed.

Lemma operands_and_operators_balance_witness :
  List.length [VInt 6; VInt 2; VInt 1; VStr "+"; VStr "/"]
  = (2 * count_operators [VInt 6; VInt 2; VInt 1; VStr "+"; VStr "/"] + 1)%nat.
Proof.
  apply (proj2 operands_and_operators_balance
           [VInt 6; VInt 2; VInt 1; VStr "+"; VStr "/"] (VInt 2)).
  reflexivity.
Defined.

(** X6: the value of an expression is its only token, or else an Integer:
    an expression of two or more tokens that evaluates ends with an
    operator, whose result is what is left. *)
Theorem expression_value_is_token_or_integer (tokens : list Value)
    (v : Value) :
  expression tokens = Ok v ->
  tokens = [v] \/ exists n, v = VInt n.
Proof.
  unfold expression.
  destruct tokens as [|t tokens] using rev_ind; [discriminate|].
  clear IHtokens. rewrite loop_snoc.
  destruct (loop tokens []) as [s|e] eqn:Epre; cbn [bind]; [|discriminate].
  destruct (step s t) as [stack|e] eqn:Estep; cbn [bind]; [|discriminate].
  destruct stack as [|v' [|w stack]]; try discriminate.
  intros [= ->].
  destruct (Py.in_ t operators) eqn:Hop.
  - right.
    destruct (step_operator_inv _ _ _ Hop Estep)
      as (o & below & a & b & r & _ & _ & _ & Hv).
    destruct below as [|x [|y below]]; try discriminate Hv.
    injection Hv as ->. now exists r.
  - left. rewrite (step_push _ _ Hop) in Estep. injection Estep as Hs.
    destruct s as [|x [|y s]]; try discriminate Hs.
    injection Hs as ->.
    destruct tokens as [|t' tokens] using rev_ind; [reflexivity|].
    exfalso. rewrite loop_snoc in Epre.
    destruct (loop tokens []) as [s'|e]; cbn [bind] in Epre; [|discriminate].
    now apply step_nonempty in Epre.
Qed.

Lemma expression_value_is_token_or_integer_witness :
  [VInt 7; VInt 2; VStr "mod"] = [VInt 1] \/ exists n, VInt 1 = VInt n.
Proof.
  apply (expression_value_is_token_or_integer [VInt 7; VInt 2; VStr "mod"]).
  reflexivity.
Defined.

(** X7: the stack machine computes arithmetic. On the postfix form of a
    term the loop leaves the value of the term on top of the stack it
    started with and goes on with the tokens that follow, or raises the
    division by zero that the term's evaluation meets first; [expression]
    on the postfix form alone returns the value. *)
Theorem postfix_evaluates_term :
  (forall (t : Arith.term) (rest stack : list Value),
      loop (Arith.postfix t ++ rest) stack
      = n <- Arith.eval t ;; loop rest (stack ++ [VInt n]))
  /\ (forall t : Arith.term,
         expression (Arith.postfix t) = n <- Arith.eval t ;; Ok (VInt n)).
Proof.
  assert (Hloop : forall t rest stack,
             loop (Arith.postfix t ++ rest) stack
             = n <- Arith.eval t ;; loop rest (stack ++ [VInt n])).
  { induction t as [n | o l IHl r IHr]; intros rest stack;
      cbn [Arith.postfix Arith.eval].
    - reflexivity.
    - rewrite <- !app_assoc, IHl.
      destruct (Arith.eval l) as [a|e]; cbn [bind]; [|reflexivity].
      rewrite IHr.
      destruct (Arith.eval r) as [b|e]; cbn [bind]; [|reflexivity].
      cbn [app loop]. rewrite <- app_assoc. cbn [app].
      rewrite step_operator.
      destruct (Spec.apply o a b); reflexivity. }
  split; [exact Hloop|].
  intros t. unfold expression.
  rewrite <- (app_nil_r (Arith.postfix t)), Hloop.
  destruct (Arith.eval t); reflexivity.
Qed.

Lemma step_frame (below stack stack' : list Value) (token : Value) :
  step stack token = Ok stack' ->
  step (below ++ stack) token = Ok (below ++ stack').
Proof.
  intros H. destruct (Py.in_ token operators) eqn:Hop.
  - destruct (step_operator_inv _ _ _ Hop H)
      as (o & s & a & b & r & -> & -> & Happly & ->).
    rewrite !app_assoc, step_operator, Happly. reflexivity.
  - rewrite (step_push stack _ Hop) in H. injection H as <-.
    now rewrite (step_push (below ++ stack) _ Hop), app_assoc.
Qed.

(** X8: tokens that evaluate on a stack evaluate to the same on any
    deeper stack and leave what lies below as it was. *)
Theorem loop_leaves_the_stack_below (tokens below stack stack' : list Value) :
  loop tokens stack = Ok stack' ->
  loop tokens (below ++ stack) = Ok (below ++ stack').
Proof.
  revert stack.
  induction tokens as [|t tokens IH]; intros stack; cbn [loop].
  - now intros [= <-].
  - destruct (step stack t) as [s|e] eqn:E; cbn [bind]; [|discriminate].
    rewrite (step_frame below _ _ _ E). cbn [bind]. apply IH.
Qed.

Lemma loop_leaves_the_stack_below_witness :
  loop [VInt 2; VStr "*"] ([VStr "s"; VList []] ++ [VInt 4])
  = Ok ([VStr "s"; VList []] ++ [VInt 8]).
Proof.
  apply (loop_leaves_the_stack_below [VInt 2; VStr "*"] [VStr "s"; VList []]
           [VInt 4] [VInt 8]).
  reflexivity.
Defined.

(** ** Arrays and the order of the walk *)

Section Walk.

Lemma mapM_Forall2 {A B} (f : A -> result B) (l : list A) (ys : list B) :
  mapM f l = Ok ys <-> Forall2 (fun x y => f x = Ok y) l ys.
Proof.
  revert ys. induction l as [|x l IH]; intros ys; cbn [mapM].
  - split; [intros [= <-]; constructor | intros H; now inversion H].
  - split.
    + destruct (f x) as [y|e] eqn:Ex; cbn [bind]; [|discriminate].
      destruct (mapM f l) as [ys'|e] eqn:El; cbn [bind]; [|discriminate].
      intros [= <-]. constructor; [exact Ex | now apply IH].
    + intros H. inversion H as [|x' y l' ys' Hx Hl]; subst.
      rewrite Hx. cbn [bind]. apply IH in Hl. now rewrite Hl.
Qed.

Lemma mapM_ext_in {A B} (f g : A -> result B) (l : list A) :
  (forall x, In x l -> f x = g x) -> mapM f l = mapM g l.
Proof.
  induction l as [|x l IH]; intros H; cbn [mapM]; [reflexivity|].
  rewrite (H x (or_introl eq_refl)), IH; [reflexivity|].
  intros y Hy. apply H. now right.
Qed.

Lemma mapM_ok {A B} (f : A -> result B) (l : list A) :
  (forall x, In x l -> exists y, f x = Ok y) -> exists ys, mapM f l = Ok ys.
Proof.
  induction l as [|x l IH]; intros H; cbn [mapM]; [now exists []|].
  destruct (H x (or_introl eq_refl)) as [y ->].
  destruct IH as [ys ->]; [intros z Hz; apply H; now right|].
  now exists (y :: ys).
Qed.

End Walk.

(** X9: an array resolves to the list of its resolved elements, as many
    and in the same order; it resolves exactly when every element does. *)
Theorem array_resolves_elementwise (self : Py.dict)
    (items : list Grammar.value) (v : Value) :
  transform self (Grammar.array items) = Ok v
  <-> exists vs,
      v = VList vs
      /\ Forall2 (fun item x => transform self item = Ok x) items vs.
Proof.
  cbn [transform]. split.
  - destruct (mapM (transform self) items) as [vs|e] eqn:E; cbn [bind];
      [|discriminate].
    intros [= <-]. exists vs. split; [reflexivity | now apply mapM_Forall2].
  - intros (vs & -> & H). apply mapM_Forall2 in H. now rewrite H.
Qed.

Lemma array_resolves_elementwise_witness :
  transform [("A", VInt 2)]
    (Grammar.array [Grammar.string (quoted "x"); Grammar.name_ref "A"])
  = Ok (VList [VStr "x"; VInt 2]).
Proof.
  apply (proj2 (array_resolves_elementwise [("A", VInt 2)]
                  [Grammar.string (quoted "x"); Grammar.name_ref "A"]
                  (VList [VStr "x"; VInt 2]))).
  exists [VStr "x"; VInt 2]. split; [reflexivity|].
  repeat constructor.
Defined.

(** X10: the first exception is the outcome. A document whose beginning
    fails, fails with the same exception whatever follows; an exception
    raised where the walk of a statement has come to ends the compilation;
    and a document compiles only if each of its beginnings does. *)
Theorem first_exception_is_the_outcome :
  (forall (doc more : Grammar.start) (e : exn),
      parse doc = Raise e -> parse (doc ++ more) = Raise e)
  /\ (forall (before after : Grammar.start) (name : str)
             (v sub : Grammar.value) (self : Py.dict) (e : exn),
         statements init before = Ok self ->
         reaches self v sub ->
         transform self sub = Raise e ->
         parse (before ++ Grammar.set name v :: after) = Raise e)
  /\ (forall (doc more : Grammar.start) (d : Py.dict),
         parse (doc ++ more) = Ok d -> exists d0, parse doc = Ok d0).
Proof.
  unfold parse, start. split; [|split].
  - intros doc more e. rewrite statements_app.
    destruct (statements init doc) as [d|e']; cbn [bind];
      [discriminate | trivial].
  - intros before after name v sub self e Hbefore Hreach Hsub.
    rewrite (statements_raise before after name v init self e Hbefore);
      [reflexivity|].
    exact (reaches_raise self v sub e Hreach Hsub).
  - intros doc more d. rewrite statements_app.
    destruct (statements init doc) as [d0|e]; cbn [bind];
      [now exists d0 | discriminate].
Qed.

Lemma first_exception_is_the_outcome_witness :
  parse ([Grammar.set "A" (Grammar.name_ref "B")]
         ++ [Grammar.set "B" (Grammar.number "0o1")])
  = Raise (Undefined_constant "B")
  /\ parse ([] ++ Grammar.set "A"
                    (Grammar.array [Grammar.number "0o1";
                                    Grammar.expression []]) :: [])
     = Raise (Expression_error [])
  /\ exists d0, parse [Grammar.set "A" (Grammar.number "0o1")] = Ok d0.
Proof.
  destruct first_exception_is_the_outcome as (H1 & H2 & H3).
  split; [|split].
  - apply (H1 [Grammar.set "A" (Grammar.name_ref "B")]). reflexivity.
  - apply (H2 [] [] "A" _ (Grammar.expression []) []).
    + reflexivity.
    + apply (reaches_array [] [Grammar.number "0o1"] [] _ _ [VInt 1]);
        [reflexivity | apply reaches_here].
    + reflexivity.
  - apply (H3 [Grammar.set "A" (Grammar.number "0o1")]
              [Grammar.set "B" (Grammar.name_ref "A")]
              [("A", VInt 1); ("B", VInt 1)]).
    reflexivity.
Defined.

(** ** The pops are guarded *)

Section Guarded.

Lemma transform_no_IndexError (self : Py.dict) (t : Grammar.value) :
  transform self t <> Raise IndexError.
Proof.
  induction t as [items IH | text | text | body IH | name]
    using Grammar.value_children_ind.
  - cbn [transform].
    destruct (mapM (transform self) items) as [vs|e] eqn:E; cbn [bind];
      [discriminate|].
    intros [= ->]. apply mapM_raise_inv in E as (x & Hin & Hx).
    rewrite Forall_forall in IH. exact (IH x Hin Hx).
  - discriminate.
  - cbn [transform]. unfold number.
    destruct (Py.int8 _); cbn [bind]; discriminate.
  - rewrite transform_expression.
    destruct (mapM (expr_item self) body) as [tokens|e] eqn:E; cbn [bind].
    + unfold expression, expr_body.
      destruct (loop tokens []) as [stack|e] eqn:El; cbn [bind].
      * destruct stack as [|v [|w stack]]; cbn [bind]; discriminate.
      * intros [= ->].
        destruct (loop_raises _ _ _ El) as [[t H]|[(a & b & H)|H]];
          discriminate H.
    + intros [= ->]. apply mapM_raise_inv in E as ([x|o] & Hin & Hx);
        [|discriminate].
      rewrite Forall_forall in IH. exact (IH (inl x) Hin Hx).
  - cbn [transform]. unfold name_ref.
    destruct (Py.contains self name); [destruct (Py.getitem self name)|];
      cbn [bind]; discriminate.
Qed.

End Guarded.

(** X11: no document makes [pop] fail: the test on the length of the stack
    comes before the two pops, so the compilation never ends with the
    exception of a pop from an empty list. *)
Theorem pops_never_fail (doc : Grammar.start) : parse doc <> Raise IndexError.
Proof.
  unfold parse. generalize init.
  induction doc as [|s doc IH]; intros self; cbn [statements bind];
    [discriminate|].
  destruct (transform self (Grammar.val s)) as [v|e] eqn:E; cbn [bind].
  - apply IH.
  - intros [= ->]. exact (transform_no_IndexError _ _ E).
Qed.

(** ** More on the mapping *)

Section Mapping.

Lemma order_of_first_write_In (names : list str) (k : str) :
  In k (Spec.order_of_first_write names) <-> In k names.
Proof.
  induction names as [|n names IH]; cbn [Spec.order_of_first_write];
    [reflexivity|].
  cbn [In]. rewrite filter_In, IH.
  destruct (String.eqb n k) eqn:E.
  - apply String.eqb_eq in E. subst. cbn. tauto.
  - apply String.eqb_neq in E. cbn. tauto.
Qed.

Lemma order_of_first_write_distinct (names : list str) :
  NoDup names -> Spec.order_of_first_write names = names.
Proof.
  induction names as [|n names IH]; intros H; cbn [Spec.order_of_first_write];
    [reflexivity|].
  apply NoDup_cons_iff in H as [Hn Hnames].
  rewrite (IH Hnames). f_equal.
  rewrite <- (filter_true names) at 2. apply filter_ext_in.
  intros m Hm. apply negb_true_iff, String.eqb_neq. now intros ->.
Qed.

Lemma parse_keys (doc : Grammar.start) (d : Py.dict) :
  parse doc = Ok d ->
  Py.keys d = Spec.order_of_first_write (map Grammar.NAME doc).
Proof.
  unfold parse, start. intros H.
  destruct (statements init doc) as [d'|e] eqn:Hrun; [|discriminate].
  injection H as <-.
  rewrite (statements_keys doc _ _ Hrun).
  cbn [init Py.keys map app existsb negb]. apply filter_true.
Qed.

Lemma parse_NoDup (doc : Grammar.start) (d : Py.dict) :
  parse doc = Ok d -> NoDup (Py.keys d).
Proof.
  unfold parse, start. intros H.
  destruct (statements init doc) as [d'|e] eqn:Hrun; [|discriminate].
  injection H as <-.
  exact (statements_NoDup doc init d' (NoDup_nil _) Hrun).
Qed.

End Mapping.

(** X12: a document of [N] statements that declare distinct names
    compiles, when it compiles, to a mapping of [N] entries whose keys are
    the names in the order of the statements. *)
Theorem distinct_names_one_entry_each (doc : Grammar.start) (d : Py.dict) :
  NoDup (map Grammar.NAME doc) ->
  parse doc = Ok d ->
  Py.keys d = map Grammar.NAME doc /\ List.length d = List.length doc.
Proof.
  intros Hnd H.
  assert (Hkeys : Py.keys d = map Grammar.NAME doc).
  { rewrite (parse_keys doc d H). now apply order_of_first_write_distinct. }
  split; [exact Hkeys|].
  apply (f_equal (@List.length str)) in Hkeys.
  unfold Py.keys in Hkeys. now rewrite !length_map in Hkeys.
Qed.

Lemma distinct_names_one_entry_each_witness :
  Py.keys [("B", VInt 1); ("A", VStr "t")] = ["B"; "A"]%string
  /\ List.length [("B", VInt 1); ("A", VStr "t")] = 2%nat.
Proof.
  apply (distinct_names_one_entry_each
           [Grammar.set "B" (Grammar.number "0o1");
            Grammar.set "A" (Grammar.string (quoted "t"))]).
  - repeat constructor; cbn; intuition discriminate.
  - reflexivity.
Defined.

(** X13: the keys of a compiled mapping are the declared names and no
    others, and no key occurs twice. *)
Theorem keys_are_the_declared_names (doc : Grammar.start) (d : Py.dict) :
  parse doc = Ok d ->
  NoDup (Py.keys d)
  /\ forall k, In k (Py.keys d) <-> In k (map Grammar.NAME doc).
Proof.
  intros H. split; [exact (parse_NoDup doc d H)|].
  intros k. rewrite (parse_keys doc d H). apply order_of_first_write_In.
Qed.

Lemma keys_are_the_declared_names_witness :
  NoDup (Py.keys [("A", VInt 3); ("B", VInt 2)])
  /\ forall k,
      In k (Py.keys [("A", VInt 3); ("B", VInt 2)])
      <-> In k (map Grammar.NAME Examples.redeclared).
Proof.
  apply (keys_are_the_declared_names Examples.redeclared). reflexivity.
Defined.

(** X14: statements never remove or move an entry of the table: the keys
    it had stay in front in their order, and the entry of a name that the
    statements do not declare keeps its value. *)
Theorem statements_only_add_and_overwrite (self d : Py.dict)
    (doc : Grammar.start) :
  statements self doc = Ok d ->
  (exists added, Py.keys d = Py.keys self ++ added)
  /\ forall k,
      ~ In k (map Grammar.NAME doc) -> Py.getitem d k = Py.getitem self k.
Proof.
  intros H. split.
  - rewrite (statements_keys doc _ _ H). eauto.
  - intros k Hk. exact (statements_getitem_other doc k Hk self d H).
Qed.

Lemma statements_only_add_and_overwrite_witness :
  (exists added,
      Py.keys [("A", VInt 1); ("B", VInt 5); ("C", VInt 1)]
      = Py.keys [("A", VInt 1); ("B", VInt 2)] ++ added)
  /\ forall k,
      ~ In k ["C"; "B"]%string ->
      Py.getitem [("A", VInt 1); ("B", VInt 5); ("C", VInt 1)] k
      = Py.getitem [("A", VInt 1); ("B", VInt 2)] k.
Proof.
  apply (statements_only_add_and_overwrite
           [("A", VInt 1); ("B", VInt 2)]
           [("A", VInt 1); ("B", VInt 5); ("C", VInt 1)]
           [Grammar.set "C" (Grammar.name_ref "A");
            Grammar.set "B" (Grammar.number "0o5")]).
  reflexivity.
Defined.

(** ** What a value depends on *)

(** X15: a value is resolved from the entries of the names it refers to
    and from nothing else in the table: two tables that agree on these
    names give the same result, value or exception; a value that refers to
    no name resolves the same in every table. *)
Theorem transform_reads_only_its_names (self1 self2 : Py.dict)
    (t : Grammar.value) :
  (forall n, In n (names t) -> Py.getitem self1 n = Py.getitem self2 n) ->
  transform self1 t = transform self2 t.
Proof.
  induction t as [items IH | text | text | body IH | name]
    using Grammar.value_children_ind; cbn [names]; intros H.
  - cbn [transform].
    rewrite (mapM_ext_in (transform self1) (transform self2) items);
      [reflexivity|].
    intros x Hx. rewrite Forall_forall in IH. apply (IH x Hx).
    intros n Hn. apply H, in_flat_map. now exists x.
  - reflexivity.
  - reflexivity.
  - rewrite !transform_expression.
    rewrite (mapM_ext_in (expr_item self1) (expr_item self2) body);
      [reflexivity|].
    intros [x|o] Hx; [|reflexivity]. cbn [expr_item].
    rewrite Forall_forall in IH. apply (IH (inl x) Hx).
    intros n Hn. apply H, in_flat_map. now exists (inl x).
  - cbn [transform]. unfold name_ref, Py.contains.
    now rewrite (H name (or_introl eq_refl)).
Qed.

Lemma transform_reads_only_its_names_witness :
  transform [("A", VInt 1); ("B", VInt 2)]
    (Grammar.array [Grammar.name_ref "A"; Grammar.name_ref "C"])
  = transform [("B", VStr "other"); ("A", VInt 1)]
      (Grammar.array [Grammar.name_ref "A"; Grammar.name_ref "C"]).
Proof.
  apply (transform_reads_only_its_names
           [("A", VInt 1); ("B", VInt 2)]
           [("B", VStr "other"); ("A", VInt 1)]).
  cbn. intros n [<-|[<-|[]]]; reflexivity.
Defined.

(** ** Documents that always compile *)

Section Plain.

Lemma plain_resolves (declared : list str) (self : Py.dict)
    (t : Grammar.value) :
  (forall n,
      existsb (String.eqb n) declared = true -> Py.getitem self n <> None) ->
  plain declared t = true ->
  exists v, transform self t = Ok v.
Proof.
  intros Hself.
  induction t as [items IH | text | text | body IH | name]
    using Grammar.value_children_ind; cbn [plain]; intros H.
  - cbn [transform].
    destruct (mapM_ok (transform self) items) as [vs ->]; [|now eexists].
    intros x Hx. rewrite Forall_forall in IH. rewrite forallb_forall in H.
    exact (IH x Hx (H x Hx)).
  - now eexists.
  - cbn [transform]. destruct (number_lexed text H) as [n ->]. now eexists.
  - discriminate.
  - cbn [transform]. unfold name_ref, Py.contains.
    specialize (Hself name H).
    destruct (Py.getitem self name); [now eexists | congruence].
Qed.

Lemma well_scoped_compiles (doc : Grammar.start) :
  forall declared self,
    (forall n,
        existsb (String.eqb n) declared = true -> Py.getitem self n <> None) ->
    well_scoped declared doc = true ->
    exists d, statements self doc = Ok d.
Proof.
  induction doc as [|s doc IH]; intros declared self Hself;
    cbn [well_scoped statements]; [now eexists|].
  intros H. apply andb_true_iff in H as [Hs Hdoc].
  destruct (plain_resolves declared self _ Hself Hs) as [v ->]. cbn [bind].
  apply (IH (Grammar.NAME s :: declared)); [|exact Hdoc].
  intros n Hn. cbn [existsb] in Hn. unfold constant_decl.
  destruct (String.eqb n (Grammar.NAME s)) eqn:E.
  - apply String.eqb_eq in E. subst n. rewrite getitem_setitem. discriminate.
  - apply String.eqb_neq in E.
    rewrite getitem_setitem_other by congruence.
    apply Hself. exact Hn.
Qed.

End Plain.

(** X16: a document without expressions, whose number tokens the lexer
    matched and in which every reference is to a name declared by an
    earlier statement, always compiles: no exception is raised. *)
Theorem well_scoped_document_compiles (doc : Grammar.start) :
  well_scoped [] doc = true -> exists d, parse doc = Ok d.
Proof.
  intros H. unfold parse.
  destruct (well_scoped_compiles doc [] init) as [d ->]; [|exact H|].
  - intros n Hn. discriminate Hn.
  - now exists (start d).
Qed.

Lemma well_scoped_document_compiles_witness :
  exists d,
    parse [Grammar.set "A" (Grammar.number "0o12");
           Grammar.set "B"
             (Grammar.array [Grammar.name_ref "A";
                             Grammar.string (quoted "x")])]
    = Ok d.
Proof.
  apply well_scoped_document_compiles. reflexivity.
Defined.

(** ** Where the undefined-constant error comes from *)

Section Undefined.

Lemma transform_undefined (self : Py.dict) (t : Grammar.value) (n : str) :
  transform self t = Raise (Undefined_constant n) ->
  In n (names t) /\ Py.getitem self n = None.
Proof.
  induction t as [items IH | text | text | body IH | name]
    using Grammar.value_children_ind; cbn [names].
  - cbn [transform].
    destruct (mapM (transform self) items) as [vs|e] eqn:E; cbn [bind];
      [discriminate|].
    intros [= ->]. apply mapM_raise_inv in E as (x & Hin & Hx).
    rewrite Forall_forall in IH. destruct (IH x Hin Hx) as [Hn Hget].
    split; [|exact Hget]. apply in_flat_map. now exists x.
  - discriminate.
  - cbn [transform]. unfold number.
    destruct (Py.int8 _); cbn [bind]; discriminate.
  - rewrite transform_expression.
    destruct (mapM (expr_item self) body) as [tokens|e] eqn:E; cbn [bind].
    + unfold expression, expr_body.
      destruct (loop tokens []) as [stack|e] eqn:El; cbn [bind].
      * destruct stack as [|v [|w stack]]; cbn [bind]; discriminate.
      * intros [= ->].
        destruct (loop_raises _ _ _ El) as [[t H]|[(a & b & H)|H]];
          discriminate H.
    + intros [= ->]. apply mapM_raise_inv in E as ([x|o] & Hin & Hx);
        [|discriminate].
      rewrite Forall_forall in IH.
      destruct (IH (inl x) Hin Hx) as [Hn Hget].
      split; [|exact Hget]. apply in_flat_map. now exists (inl x).
  - cbn [transform]. unfold name_ref, Py.contains.
    destruct (Py.getitem self name) eqn:E; cbn [bind]; [discriminate|].
    intros [= <-]. split; [now left | exact E].
Qed.

Lemma statements_declared (doc : Grammar.start) :
  forall self d k,
    statements self doc = Ok d ->
    In k (map Grammar.NAME doc) -> Py.getitem d k <> None.
Proof.
  induction doc as [|s doc IH]; intros self d k; cbn [statements map];
    [intros _ []|].
  destruct (transform self (Grammar.val s)) as [v|e]; cbn [bind];
    [|discriminate].
  intros Hrun Hin.
  destruct (in_dec string_dec k (map Grammar.NAME doc)) as [Hlater|Hlater].
  - exact (IH _ _ _ Hrun Hlater).
  - destruct Hin as [<-|Hin]; [|contradiction].
    rewrite (statements_getitem_other doc _ Hlater _ _ Hrun).
    unfold constant_decl. rewrite getitem_setitem. discriminate.
Qed.

End Undefined.

(** X17: when the compilation ends with the undefined-constant error for
    a name, some statement refers to that name and no statement before it
    declares it. *)
Theorem undefined_constant_is_referenced_too_early (doc : Grammar.start)
    (n : str) :
  parse doc = Raise (Undefined_constant n) ->
  exists before s after,
    doc = before ++ s :: after
    /\ In n (names (Grammar.val s))
    /\ ~ In n (map Grammar.NAME before).
Proof.
  unfold parse. intros H.
  destruct (statements init doc) as [d|e] eqn:Hrun; cbn [bind] in H;
    [discriminate|].
  injection H as ->.
  assert (G : forall doc self,
             statements self doc = Raise (Undefined_constant n) ->
             exists before s after self',
               doc = before ++ s :: after
               /\ statements self before = Ok self'
               /\ In n (names (Grammar.val s))
               /\ Py.getitem self' n = None).
  { clear. induction doc as [|s doc IH]; intros self; cbn [statements];
      [discriminate|].
    destruct (transform self (Grammar.val s)) as [v|e] eqn:E; cbn [bind].
    - intros H. destruct (IH _ H) as (before & s' & after & self' & -> & Hb & Hn & Hg).
      exists (s :: before), s', after, self'.
      split; [reflexivity|]. split; [|now split].
      cbn [statements]. now rewrite E.
    - intros [= ->]. destruct (transform_undefined _ _ _ E) as [Hn Hg].
      now exists [], s, doc, self. }
  destruct (G doc init Hrun) as (before & s & after & self' & -> & Hb & Hn & Hg).
  exists before, s, after. split; [reflexivity|]. split; [exact Hn|].
  intros Hin. exact (statements_declared before init self' n Hb Hin Hg).
Qed.

Lemma undefined_constant_is_referenced_too_early_witness :
  exists before s after,
    [Grammar.set "A" (Grammar.number "0o1");
     Grammar.set "B" (Grammar.array [Grammar.name_ref "A";
                                     Grammar.name_ref "C"]);
     Grammar.set "C" (Grammar.number "0o2")]
    = before ++ s :: after
    /\ In "C"%string (names (Grammar.val s))
    /\ ~ In "C"%string (map Grammar.NAME before).
Proof.
  apply undefined_constant_is_referenced_too_early. reflexivity.
Defined.
